(** * marks-qsearch: the fetch-and-cache engine of [logic.py]

    A shallow embedding of [src/logic.py] (the cache store, the retrying
    fetcher and the chapter crawler) and the properties of it that the
    specification states. *)

From Stdlib Require Import ZArith Ascii String List Lia.
From stdpp Require Import base option gmap strings list fin_maps pretty.

#[local] Set Warnings "-register-all".
Local Open Scope string_scope.
Local Open Scope Z_scope.

(** ** Python values *)

(** What [json.load] and [response.json()] produce: [None], [bool], [int],
    [str], [list] and [dict] with [str] keys.  A [str] is a sequence of
    code points below 256; [float] is not modelled.  Two dicts are equal in
    Python when they hold the same items, which is equality of [gmap]. *)
Inductive json : Type :=
| JNull
| JBool (b : bool)
| JNum (n : Z)
| JStr (s : string)
| JArr (l : list json)
| JObj (m : gmap string json).

(** Python truth value, as tested by [if x:] and [if not x:]. *)
Definition truthy (v : json) : bool :=
  match v with
  | JNull => false
  | JBool b => b
  | JNum n => negb (n =? 0)
  | JStr s => negb (String.length s =? 0)%nat
  | JArr l => negb (length l =? 0)%nat
  | JObj m => negb (size m =? 0)%nat
  end.

(** Exceptions the code can meet. *)
Inductive exn : Type :=
| FileNotFoundError
| SameFileError                    (* shutil, copying a file onto itself *)
| UnicodeDecodeError
| JSONDecodeError
| RecursionError                   (* [json] on text nested too deeply *)
| ThreadError                      (* threading.ThreadError, from fasteners *)
| AttributeError
| KeyError
| TypeError
| ClientResponseError (status : Z) (* aiohttp; ContentTypeError is a subclass *)
| ClientConnectionError            (* aiohttp.ClientError: refused, DNS, ... *)
| TimeoutError.                    (* asyncio.TimeoutError, no ClientError *)

(** [except aiohttp.ClientError]. *)
Definition is_ClientError (e : exn) : bool :=
  match e with
  | ClientResponseError _ | ClientConnectionError => true
  | _ => false
  end.

(** Outcome of running a piece of code: a value, an exception, or [Pending]
    when it waits for a response that never comes. *)
Inductive result (A : Type) : Type :=
| Ret (a : A)
| Raise (e : exn)
| Pending.
Arguments Ret {A} a.
Arguments Raise {A} e.
Arguments Pending {A}.

(** [x in "…"] for strings, [str.lower] and [str.replace(" ", "_")]. *)
Fixpoint str_in (needle hay : string) : bool :=
  String.prefix needle hay ||
  match hay with
  | EmptyString => false
  | String _ hay' => str_in needle hay'
  end.

Definition lower_char (c : ascii) : ascii :=
  let n := N_of_ascii c in
  if ((65 <=? n) && (n <=? 90) ||
      (192 <=? n) && (n <=? 222) && negb (n =? 215))%N
  then ascii_of_N (n + 32) else c.

Fixpoint lower (s : string) : string :=
  match s with
  | EmptyString => EmptyString
  | String c s' => String (lower_char c) (lower s')
  end.

Fixpoint replace_spaces (s : string) : string :=
  match s with
  | EmptyString => EmptyString
  | String c s' =>
      String (if Ascii.eqb c " " then "_"%char else c) (replace_spaces s')
  end.

(** [os.path.dirname] (posixpath): everything before the last slash, with
    trailing slashes removed unless the head is all slashes. *)
Fixpoint rfind_slash (p : string) : option nat :=
  match p with
  | EmptyString => None
  | String c p' =>
      match rfind_slash p' with
      | Some i => Some (S i)
      | None => if Ascii.eqb c "/" then Some O else None
      end
  end.

Fixpoint all_slashes (s : string) : bool :=
  match s with
  | EmptyString => true
  | String c s' => Ascii.eqb c "/" && all_slashes s'
  end.

Fixpoint rstrip_slashes (s : string) : string :=
  match s with
  | EmptyString => EmptyString
  | String c s' => if all_slashes s then EmptyString else String c (rstrip_slashes s')
  end.

Definition dirname (p : string) : string :=
  match rfind_slash p with
  | None => EmptyString
  | Some i =>
      let head := String.substring 0 (S i) p in
      if all_slashes head then head else rstrip_slashes head
  end.

(** [os.path.join(a, b)] where [a] has no trailing slash. *)
Definition path_join (a b : string) : string :=
  if String.prefix "/" b then b else a ++ "/" ++ b.

(** Module constants. *)
Definition CACHE_FILE : string := "data/cache.json".
Definition BACKUP_FILE : string := "data/cache.bak".
Definition BASE_URL : string := "https://web.getmarks.app/api/v3/cpyqb".
Definition MATCHING_QUESTIONS_FOLDER : string := "data/matching_questions".

(** ** The world the code runs in *)

(** A file that exists holds bytes: either they decode as UTF-8 to a text,
    or reading them in text mode raises [UnicodeDecodeError].  Directories
    are known by their path: the ones recorded in [dirs], and the ones that
    hold a file. *)
Inductive file_data : Type :=
| Utf8 (text : string)
| NotUtf8.

(** What the server does on one HTTP attempt. *)
Inductive payload : Type :=
| Json (v : json)       (* [response.json()] returns [v] *)
| NotJson               (* wrong content type: [ContentTypeError] *)
| BadJson.              (* body does not parse: [JSONDecodeError] *)

Inductive attempt : Type :=
| Response (status : Z) (body : payload)
| Failed (e : exn).     (* the session or the request raises [e] *)

Record world : Type := World {
  files : gmap string file_data;   (* the files, by path *)
  dirs : gset string;              (* directories made or known to exist *)
  lock_gotten : bool;              (* what [lock.acquire(timeout=10)] returns:
                                      [false] when another process holds the
                                      lock file for the whole wait *)
  lock_acquired : bool;            (* [acquired] flag of the lock object *)
  server : list attempt;           (* outcomes of the HTTP attempts to come *)
  calls : list (string * string);  (* [fetch_with_retries] calls: method, url *)
  sleeps : list Z;                 (* arguments of [asyncio.sleep], in order *)
  cache : gmap string json;        (* the dict shared by all callers *)
  matching_questions : list json;  (* the list [search_questions] returns *)
  progress : nat                   (* calls of [progress_callback(1)] *)
}.

Definition set_files (f : gmap string file_data → gmap string file_data) (w : world) : world :=
  World (f (files w)) (dirs w) (lock_gotten w) (lock_acquired w) (server w) (calls w)
        (sleeps w) (cache w) (matching_questions w) (progress w).
Definition set_lock_acquired (b : bool) (w : world) : world :=
  World (files w) (dirs w) (lock_gotten w) b (server w) (calls w)
        (sleeps w) (cache w) (matching_questions w) (progress w).
Definition set_server (s : list attempt) (w : world) : world :=
  World (files w) (dirs w) (lock_gotten w) (lock_acquired w) s (calls w)
        (sleeps w) (cache w) (matching_questions w) (progress w).
Definition add_call (c : string * string) (w : world) : world :=
  World (files w) (dirs w) (lock_gotten w) (lock_acquired w) (server w) (calls w ++ [c])
        (sleeps w) (cache w) (matching_questions w) (progress w).
Definition add_sleeps (d : list Z) (w : world) : world :=
  World (files w) (dirs w) (lock_gotten w) (lock_acquired w) (server w) (calls w)
        (sleeps w ++ d) (cache w) (matching_questions w) (progress w).
Definition set_cache (f : gmap string json → gmap string json) (w : world) : world :=
  World (files w) (dirs w) (lock_gotten w) (lock_acquired w) (server w) (calls w)
        (sleeps w) (f (cache w)) (matching_questions w) (progress w).
Definition add_match (d : json) (w : world) : world :=
  World (files w) (dirs w) (lock_gotten w) (lock_acquired w) (server w) (calls w)
        (sleeps w) (cache w) (matching_questions w ++ [d]) (progress w).
Definition add_progress (w : world) : world :=
  World (files w) (dirs w) (lock_gotten w) (lock_acquired w) (server w) (calls w)
        (sleeps w) (cache w) (matching_questions w) (S (progress w)).
Definition add_dirs (ds : list string) (w : world) : world :=
  World (files w) (dirs w ∪ list_to_set ds) (lock_gotten w) (lock_acquired w)
        (server w) (calls w) (sleeps w) (cache w) (matching_questions w) (progress w).

(** Whether [d] is a directory: the current directory and the root are,
    and so is the directory of any file that exists. *)
Definition dir_exists (w : world) (d : string) : bool :=
  all_slashes d || bool_decide (d ∈ dirs w) ||
  bool_decide (map_Exists (λ path _, dirname path = d) (files w)).

(** The directories [os.makedirs(d)] makes sure of: [d] and the ones
    above it. *)
Fixpoint ancestors (fuel : nat) (d : string) : list string :=
  match fuel with
  | O => []
  | S fuel' => if all_slashes d then [] else d :: ancestors fuel' (dirname d)
  end.

(** ** A state and exception monad *)

Definition M (A : Type) : Type := world → result A * world.

Definition ret {A} (a : A) : M A := λ w, (Ret a, w).
Definition raise {A} (e : exn) : M A := λ w, (Raise e, w).
Definition bind {A B} (m : M A) (k : A → M B) : M B := λ w,
  match m w with
  | (Ret a, w') => k a w'
  | (Raise e, w') => (Raise e, w')
  | (Pending, w') => (Pending, w')
  end.
Definition modify (f : world → world) : M unit := λ w, (Ret tt, f w).
Definition gets {A} (f : world → A) : M A := λ w, (Ret (f w), w).

Declare Scope py_scope.
Delimit Scope py_scope with py.
Notation "x <- m ;; k" := (bind m (λ x, k))
  (at level 100, m at next level, right associativity) : py_scope.
Notation "m ;;; k" := (bind m (λ _, k))
  (at level 100, right associativity) : py_scope.
Local Open Scope py_scope.

(** [try: body except …: handler], for the exceptions [catches] selects. *)
Definition try_except {A} (body : M A) (catches : exn → bool) (handler : exn → M A) : M A := λ w,
  match body w with
  | (Raise e, w') => if catches e then handler e w' else (Raise e, w')
  | rw => rw
  end.

(** [try: body finally: fin]; an exception of [fin] replaces the outcome. *)
Definition try_finally {A} (body : M A) (fin : M unit) : M A := λ w,
  match body w with
  | (Pending, w') => (Pending, w')
  | (r, w') =>
      match fin w' with
      | (Ret _, w'') => (r, w'')
      | (Raise e, w'') => (Raise e, w'')
      | (Pending, w'') => (Pending, w'')
      end
  end.

(** Files.  A path that is read or written names a file, not a
    directory.  Input and output do not fail for other reasons than the
    ones below; permissions and the like are not modelled. *)
Definition read_text (path : string) : M string := λ w,
  match files w !! path with
  | None => (Raise FileNotFoundError, w)
  | Some NotUtf8 => (Raise UnicodeDecodeError, w)
  | Some (Utf8 text) => (Ret text, w)
  end.
(** [open(path, "w")] and a write: the directory of [path] has to be
    there. *)
Definition write_text (path text : string) : M unit := λ w,
  if dir_exists w (dirname path)
  then (Ret tt, set_files (insert path (Utf8 text)) w)
  else (Raise FileNotFoundError, w).
Definition path_exists (path : string) : M bool :=
  gets (λ w, bool_decide (is_Some (files w !! path))).
(** [shutil.copy(src, dst)]: a copy of the bytes.  It refuses to copy a
    file onto itself (two paths are taken to name the same file when they
    are equal) and needs the directory of [dst]. *)
Definition copy_file (src dst : string) : M unit := λ w,
  match files w !! src with
  | None => (Raise FileNotFoundError, w)
  | Some d =>
      if decide (src = dst) then (Raise SameFileError, w)
      else if dir_exists w (dirname dst)
      then (Ret tt, set_files (insert dst d) w)
      else (Raise FileNotFoundError, w)
  end.
(** [os.replace(src, dst)]. *)
Definition replace_file (src dst : string) : M unit := λ w,
  match files w !! src with
  | None => (Raise FileNotFoundError, w)
  | Some d => (Ret tt, set_files (λ fs, <[dst := d]> (delete src fs)) w)
  end.
(** [os.makedirs(d, exist_ok=True)]: it fails on the empty path; [made d w]
    is the world once [d] and the directories above it are there. *)
Definition made (d : string) (w : world) : world :=
  add_dirs (ancestors (String.length d) d) w.
Definition makedirs (d : string) : M unit :=
  if decide (d = EmptyString) then raise FileNotFoundError
  else modify (made d).

(** [fasteners.InterProcessLock]: the constructor clears [acquired] and
    the lock is known by its path; [acquire] opens the lock file in append
    mode, which creates it, returns whether the lock was obtained within
    the timeout and records it, it does not raise on a timeout; [release]
    raises [ThreadError] on a lock that is not acquired. *)
Definition InterProcessLock (path : string) : M string :=
  bind (modify (set_lock_acquired false)) (λ _, ret path).
Definition touch (path : string) (fs : gmap string file_data) : gmap string file_data :=
  match fs !! path with
  | Some _ => fs
  | None => <[path := Utf8 EmptyString]> fs
  end.
Definition lock_acquire (lock : string) (timeout : Z) : M bool := λ w,
  (Ret (lock_gotten w),
   set_lock_acquired (lock_gotten w) (set_files (touch lock) w)).
Definition lock_release (lock : string) : M unit := λ w,
  if lock_acquired w then (Ret tt, set_lock_acquired false w)
  else (Raise ThreadError, w).

(** ** The retrying fetcher *)

(** How one round of [while True] in [fetch_with_retries] ends. *)
Inductive iteration : Type :=
| Continue                (* slept [delay], doubled it, [continue] *)
| Return (v : json)
| Propagate (e : exn).

(** The two [except] clauses. *)
Definition handle_exception (e : exn) : iteration :=
  match e with
  | ClientResponseError status =>
      if status =? 429 then Continue else Return JNull
  | _ => if is_ClientError e then Return JNull else Propagate e
  end.

(** The body of the [try]; the GET and the POST branch are the same code.
    [raise_for_status] raises for a status of 400 and above. *)
Definition request_once (a : attempt) : iteration :=
  match a with
  | Response status body =>
      if status =? 429 then Continue
      else if 400 <=? status then handle_exception (ClientResponseError status)
      else match body with
           | Json v => Return v
           | NotJson => handle_exception (ClientResponseError status)
           | BadJson => Propagate JSONDecodeError
           end
  | Failed e => handle_exception e
  end.

(** The loop, by recursion on the attempts the server still answers; it
    gives the outcome, the attempts left and the delays slept. *)
Fixpoint retry_loop (script : list attempt) (delay max_delay : Z)
  : result json * list attempt * list Z :=
  match script with
  | [] => (Pending, [], [])
  | a :: script' =>
      match request_once a with
      | Continue =>
          let '(r, rest, slept) :=
            retry_loop script' (Z.min (delay * 2) max_delay) max_delay in
          (r, rest, delay :: slept)
      | Return v => (Ret v, script', [])
      | Propagate e => (Raise e, script', [])
      end
  end.

Definition fetch_with_retries (url method : string) (initial_delay max_delay : Z) : M json := λ w,
  let '(r, rest, slept) := retry_loop (server w) initial_delay max_delay in
  (r, add_sleeps slept (set_server rest (add_call (method, url) w))).

(** The call with the default [initial_delay=1, max_delay=60], as every
    caller makes it; the headers are the constant [HEADERS] and no caller
    sends data. *)
Definition fetch (url method : string) : M json :=
  fetch_with_retries url method 1 60.

(** An attempt answered with HTTP 429. *)
Definition is_429 (a : attempt) : bool :=
  match a with
  | Response status _ => status =? 429
  | Failed (ClientResponseError status) => status =? 429
  | Failed _ => false
  end.

(** The delays of [n] consecutive retries, starting from [delay]. *)
Fixpoint backoff (delay : Z) (n : nat) : list Z :=
  match n with
  | O => []
  | S n' => delay :: backoff (Z.min (delay * 2) 60) n'
  end.

(** The same delays in closed form: the [i]-th is [min(2^i, 60)]. *)
Definition backoff_delays (n : nat) : list Z :=
  (λ i : nat, Z.min (2 ^ Z.of_nat i) 60) <$> seq 0 n.

(** ** Chapter tasks under [asyncio.gather] *)

(** A chapter task as the event loop sees it.  Each time the loop resumes
    the task, [process_chapter] runs up to its next [await]: it suspends
    again, or it has appended a match to [matching_questions] before it
    suspends, or it ends with an exception.  A task with no step left has
    finished. *)
Inductive step : Type :=
| Await
| Append (d : json)
| Throw (e : exn).

Definition finished (task : list step) : bool :=
  match task with [] => true | _ => false end.

(** [await asyncio.gather] over the tasks, called without [return_exceptions]:
    it returns when every task has finished; the first exception of a task
    is propagated at once to the awaiting coroutine and the other tasks are
    left as they are.  [schedule] is the order in which the loop resumes the
    tasks.  The outcome comes with the tasks as they stand and with
    [matching_questions]. *)
Fixpoint gather (schedule : list nat) (tasks : list (list step)) (matching : list json)
  : result unit * list (list step) * list json :=
  if forallb finished tasks then (Ret tt, tasks, matching)
  else
    match schedule with
    | [] => (Pending, tasks, matching)
    | i :: schedule' =>
        match tasks !! i with
        | Some (Await :: task) => gather schedule' (<[i := task]> tasks) matching
        | Some (Append d :: task) =>
            gather schedule' (<[i := task]> tasks) (matching ++ [d])
        | Some (Throw e :: task) => (Raise e, <[i := []]> tasks, matching)
        | _ => gather schedule' tasks matching
        end
    end.

(** What [search_questions] does from line 191 on: [try: await asyncio.gather
    except Exception as e: print], then [return matching_questions].
    The second component is the exception that was logged, if any. *)
Definition search_questions_gather (schedule : list nat) (tasks : list (list step))
  : result (list json) * option exn :=
  match gather schedule tasks [] with
  | (Ret _, _, matching) => (Ret matching, None)
  | (Raise e, _, matching) => (Ret matching, Some e)
  | (Pending, _, _) => (Pending, None)
  end.

(** The matches a task appends when it runs to its end. *)
Fixpoint matches_of (task : list step) : list json :=
  match task with
  | [] => []
  | Append d :: task' => d :: matches_of task'
  | Throw _ :: _ => []
  | Await :: task' => matches_of task'
  end.

(** ** A small [json] module

    An implementation of the [dumps]/[loads] interface, to run the model
    on concrete inputs.  It prints on one line whatever the indent. *)

Fixpoint quote_body (s : string) : string :=
  match s with
  | EmptyString => EmptyString
  | String c s' =>
      if Ascii.eqb c "034" || Ascii.eqb c "\" then String "\" (String c (quote_body s'))
      else String c (quote_body s')
  end.
Definition quote (s : string) : string := String "034" (quote_body s ++ String "034" EmptyString).

Definition join_items (items : list string) : string :=
  match items with
  | [] => EmptyString
  | x :: xs => x ++ fold_right (λ y acc, ", " ++ y ++ acc) EmptyString xs
  end.

Fixpoint demo_dumps_value (v : json) : string :=
  match v with
  | JNull => "null"
  | JBool true => "true"
  | JBool false => "false"
  | JNum n => pretty n
  | JStr s => quote s
  | JArr l => "[" ++ join_items (map demo_dumps_value l) ++ "]"
  | JObj m =>
      "{" ++ join_items (map_fold (λ k x acc, (quote k ++ ": " ++ demo_dumps_value x) :: acc) [] m) ++ "}"
  end.

Fixpoint unquote_body (s : string) : option (string * string) :=
  match s with
  | EmptyString => None
  | String c s' =>
      if Ascii.eqb c "034" then Some (EmptyString, s')
      else if Ascii.eqb c "\" then
        match s' with
        | String c' s'' =>
            match unquote_body s'' with
            | Some (body, rest) => Some (String c' body, rest)
            | None => None
            end
        | EmptyString => None
        end
      else match unquote_body s' with
           | Some (body, rest) => Some (String c body, rest)
           | None => None
           end
  end.

Fixpoint skip_ws (s : string) : string :=
  match s with
  | String c s' => if Ascii.eqb c " " || Ascii.eqb c "010" then skip_ws s' else s
  | EmptyString => s
  end.

Definition digit_of (c : ascii) : option Z :=
  let n := Z.of_N (N_of_ascii c) in
  if (48 <=? n) && (n <=? 57) then Some (n - 48) else None.

Fixpoint read_digits (s : string) (acc : Z) : Z * string :=
  match s with
  | String c s' =>
      match digit_of c with
      | Some d => read_digits s' (10 * acc + d)
      | None => (acc, s)
      end
  | EmptyString => (acc, s)
  end.

Definition strip_prefix (p s : string) : option string :=
  if String.prefix p s then Some (String.substring (String.length p) (String.length s - String.length p) s)
  else None.

Fixpoint demo_parse (fuel : nat) (s : string) {struct fuel} : option (json * string) :=
  match fuel with
  | O => None
  | S fuel' =>
      let elements :=
        fix elements (k : nat) (s : string) (acc : list json) {struct k} :=
          match k with
          | O => None
          | S k' =>
              match demo_parse fuel' s with
              | Some (v, rest) =>
                  match skip_ws rest with
                  | String "," rest' => elements k' rest' (acc ++ [v])%list
                  | String "]" rest' => Some (JArr (acc ++ [v])%list, rest')
                  | _ => None
                  end
              | None => None
              end
          end in
      let members :=
        fix members (k : nat) (s : string) (acc : gmap string json) {struct k} :=
          match k with
          | O => None
          | S k' =>
              match skip_ws s with
              | String "034" s1 =>
                  match unquote_body s1 with
                  | Some (key, s2) =>
                      match skip_ws s2 with
                      | String ":" s3 =>
                          match demo_parse fuel' s3 with
                          | Some (v, rest) =>
                              match skip_ws rest with
                              | String "," rest' => members k' rest' (<[key := v]> acc)
                              | String "}" rest' => Some (JObj (<[key := v]> acc), rest')
                              | _ => None
                              end
                          | None => None
                          end
                      | _ => None
                      end
                  | None => None
                  end
              | _ => None
              end
          end in
      match skip_ws s with
      | String "034" s' =>
          match unquote_body s' with
          | Some (body, rest) => Some (JStr body, rest)
          | None => None
          end
      | String "[" s' =>
          match skip_ws s' with
          | String "]" rest => Some (JArr [], rest)
          | _ => elements (String.length s') s' []
          end
      | String "{" s' =>
          match skip_ws s' with
          | String "}" rest => Some (JObj ∅, rest)
          | _ => members (String.length s') s' ∅
          end
      | String "-" s' =>
          match s' with
          | String c _ =>
              match digit_of c with
              | Some _ => let '(n, rest) := read_digits s' 0 in Some (JNum (- n), rest)
              | None => None
              end
          | EmptyString => None
          end
      | String c s' as t =>
          match digit_of c with
          | Some _ => let '(n, rest) := read_digits t 0 in Some (JNum n, rest)
          | None =>
              match strip_prefix "null" t, strip_prefix "true" t, strip_prefix "false" t with
              | Some rest, _, _ => Some (JNull, rest)
              | _, Some rest, _ => Some (JBool true, rest)
              | _, _, Some rest => Some (JBool false, rest)
              | _, _, _ => None
              end
          end
      | EmptyString => None
      end
  end.

Definition demo_dumps (indent : option nat) (v : json) : string := demo_dumps_value v.
Definition demo_loads (s : string) : option json :=
  match demo_parse (S (String.length s)) s with
  | Some (v, rest) => match skip_ws rest with EmptyString => Some v | _ => None end
  | None => None
  end.

(** A text is too deep when its brackets nest beyond [limit] levels. *)
Fixpoint nesting_exceeds (limit depth : nat) (s : string) : bool :=
  match s with
  | EmptyString => false
  | String c s' =>
      if Ascii.eqb c "[" || Ascii.eqb c "{" then
        (limit <=? depth)%nat || nesting_exceeds limit (S depth) s'
      else if Ascii.eqb c "]" || Ascii.eqb c "}" then
        nesting_exceeds limit (pred depth) s'
      else nesting_exceeds limit depth s'
  end.
Definition demo_too_deep (s : string) : bool := nesting_exceeds 1000 0 s.

Definition demo_repr (v : json) : string := demo_dumps None v.

(** ** Sample data *)

Definition detail_of (text : string) : json :=
  JObj {["data" := JObj {["question" := JObj {["text" := JStr text]}]}]}.

Definition sample_cache : gmap string json :=
  {["question_7" := detail_of "Newton's Law"]}.

(** A text that opens 1001 lists. *)
Definition deep_text : string := string_of_list_ascii (repeat "["%char 1001).

(** A world with nothing logged yet. *)
Definition world_of (fs : gmap string file_data) (gotten : bool)
    (srv : list attempt) (c : gmap string json) : world :=
  World fs ∅ gotten false srv [] [] c [] 0.

Definition sample_chapter : gmap string json :=
  <["_id" := JStr "c1"]> {["title" := JStr "Laws of Motion"]}.


(** ** The cache store *)

Section Engine.

(** The [json] module: [json.dumps(v, indent=…)]; [json.loads], which
    answers [None] when it raises: [RecursionError] on a text that is
    nested beyond what the interpreter allows, as [too_deep] tells, and
    [JSONDecodeError] on any other text that does not parse; [str()] of a
    list or dict, as an f-string formats it. *)
Variable dumps : option nat → json → string.
Variable loads : string → option json.
Variable too_deep : string → bool.
Variable repr_container : json → string.

(** A value that survives the trip through [json]. *)
Definition json_serializable (v : json) : Prop :=
  ∀ indent, loads (dumps indent v) = Some v.

Definition json_loads (text : string) : M json :=
  match loads text with
  | Some v => ret v
  | None => raise (if too_deep text then RecursionError else JSONDecodeError)
  end.

(** [json.load(f)] on [open(path, "r", encoding="utf-8")]. *)
Definition json_load_file (path : string) : M json :=
  text <- read_text path ;; json_loads text.

Definition is_decode_or_missing (e : exn) : bool :=
  match e with
  | JSONDecodeError | FileNotFoundError => true
  | _ => false
  end.

Definition load_cache_with_fallback (cache_file backup_file : string) : M json :=
  try_except (json_load_file cache_file) is_decode_or_missing (λ _,
    try_except (json_load_file backup_file) is_decode_or_missing (λ _,
      ret (JObj ∅))).

(** What a file holds for [json.load]: a value when the file exists, is a
    text and parses; nothing when it is absent or does not parse. *)
Definition parsed (w : world) (path : string) : option json :=
  match files w !! path with
  | Some (Utf8 text) => loads text
  | _ => None
  end.

(** A file that [json.load] reads without an exception other than the
    two the loader catches: nothing is there, no directory either, or it
    is a text that parses or is turned down with [JSONDecodeError]. *)
Definition loadable (w : world) (path : string) : Prop :=
  match files w !! path with
  | Some NotUtf8 => False
  | Some (Utf8 text) => loads text = None → too_deep text = false
  | None => path ≠ EmptyString → dir_exists w path = false
  end.

Definition save_cache_atomic (cache : json) (cache_file : string) : M unit :=
  cache_copy <- json_loads (dumps None cache) ;;
  let temp_file := cache_file ++ ".tmp" in
  makedirs (dirname temp_file) ;;;
  lock <- InterProcessLock (cache_file ++ ".lock") ;;
  try_finally
    (lock_acquire lock 10 ;;;
     write_text temp_file (dumps (Some 2%nat) cache_copy) ;;;
     replace_file temp_file cache_file)
    (lock_release lock).

(** The effect of [save_cache_atomic] on the files: the lock file is
    there, the temporary file is written, then moved over the cache file. *)
Definition saved (cache : json) (cache_file : string)
    (fs : gmap string file_data) : gmap string file_data :=
  <[cache_file := Utf8 (dumps (Some 2%nat) cache)]>
    (delete (cache_file ++ ".tmp")%string
       (<[(cache_file ++ ".tmp")%string := Utf8 (dumps (Some 2%nat) cache)]>
          (touch (cache_file ++ ".lock")%string fs))).

(** [with cache_lock:] serialises threads of one process and has no effect
    on a single thread of control. *)
Definition save_cache_with_backup (cache : json) (cache_file backup_file : string) : M unit :=
  ex <- path_exists cache_file ;;
  (if ex then copy_file cache_file backup_file else ret tt) ;;;
  save_cache_atomic cache cache_file.

(** ** The crawler *)

(** [str(v)], as an f-string formats a value. *)
Definition py_str (v : json) : string :=
  match v with
  | JStr s => s
  | JNum n => pretty n
  | JNull => "None"
  | JBool true => "True"
  | JBool false => "False"
  | _ => repr_container v
  end.

(** [v.get(k, dflt)], [v[k]], [for x in v] and [v.lower()]. *)
Definition py_get (v : json) (k : string) (dflt : json) : M json :=
  match v with
  | JObj m => ret (default dflt (m !! k))
  | _ => raise AttributeError
  end.

Definition py_getitem (v : json) (k : string) : M json :=
  match v with
  | JObj m => match m !! k with Some x => ret x | None => raise KeyError end
  | _ => raise TypeError
  end.

Definition py_iter (v : json) : M (list json) :=
  match v with
  | JArr l => ret l
  | JStr s => ret ((λ c, JStr (String c EmptyString)) <$> list_ascii_of_string s)
  | JObj m => ret ((λ kv, JStr kv.1) <$> map_to_list m)
  | _ => raise TypeError
  end.

Definition py_lower (v : json) : M string :=
  match v with
  | JStr s => ret (lower s)
  | _ => raise AttributeError
  end.

Fixpoint for_each {A} (l : list A) (body : A → M unit) : M unit :=
  match l with
  | [] => ret tt
  | x :: l' => body x ;;; for_each l' body
  end.

Definition cache_key_of (question_id : json) : string :=
  "question_" ++ py_str question_id.

Definition question_url (question_id : json) : string :=
  "https://web.getmarks.app/api/v2/questions/" ++ py_str question_id.

Definition fetch_question_details (question_id : json) : M json :=
  let cache_key := cache_key_of question_id in
  question_details <- gets (λ w, default JNull (cache w !! cache_key)) ;;
  if truthy question_details then ret question_details
  else
    let url := question_url question_id in
    question_details <- fetch url "POST" ;;
    (if truthy question_details then
       modify (set_cache (insert cache_key question_details)) ;;;
       cache <- gets cache ;;
       save_cache_with_backup (JObj cache) CACHE_FILE BACKUP_FILE
     else ret tt) ;;;
    ret question_details.

(** Line 174: the text of a question; line 175: the match test. *)
Definition question_text_of (question_details : json) : M json :=
  data <- py_get question_details "data" (JObj ∅) ;;
  question <- py_get data "question" (JObj ∅) ;;
  py_get question "text" (JStr EmptyString).

Definition keyword_matches (keywords : string) (question_text : json) : M bool :=
  text <- py_lower question_text ;;
  ret (str_in (lower keywords) text).

Definition match_filename (subject_id : string) (chapter_title : json) : string :=
  path_join MATCHING_QUESTIONS_FOLDER
    (replace_spaces
       ("matching_questions_" ++ subject_id ++ "_" ++ py_str chapter_title ++ ".json")).

(** The body of [for question_id in questions]: the detail is fetched,
    then lines 173 to 189 run on it. *)
Definition after_details (subject_id keywords : string) (progress_callback : bool)
    (chapter_title question_details : json) : M unit :=
  (if truthy question_details then
     question_text <- question_text_of question_details ;;
     matched <- keyword_matches keywords question_text ;;
     if matched then
       modify (add_match question_details) ;;;
       write_text (match_filename subject_id chapter_title)
                  (dumps (Some 2%nat) question_details)
     else ret tt
   else ret tt) ;;;
  if progress_callback then modify add_progress else ret tt.


Definition process_question (subject_id keywords : string) (progress_callback : bool)
    (chapter_title question_id : json) : M unit :=
  question_details <- fetch_question_details question_id ;;
  after_details subject_id keywords progress_callback chapter_title question_details.

(** One chapter, run on its own; [async with semaphore] only bounds how
    many chapters are in flight. *)
Definition process_chapter (subject_id keywords : string) (progress_callback : bool)
    (chapter : json) : M unit :=
  chapter_id <- py_getitem chapter "_id" ;;
  chapter_title <- py_getitem chapter "title" ;;
  let url := BASE_URL ++ "/chapters/" ++ py_str chapter_id ++ "/details" in
  response <- fetch url "GET" ;;
  if truthy response then
    data <- py_get response "data" (JObj ∅) ;;
    questions <- py_get data "questions" (JArr []) ;;
    question_ids <- py_iter questions ;;
    for_each question_ids
      (process_question subject_id keywords progress_callback chapter_title)
  else ret tt.

(** The files of the cache store. *)
Definition cache_paths : list string :=
  [CACHE_FILE; BACKUP_FILE; CACHE_FILE ++ ".tmp"; CACHE_FILE ++ ".lock"].

(** The worlds [save_cache_with_backup] can lead to: only the files of the
    cache store and the lock flag may differ. *)
Definition cache_files_only (w w' : world) : Prop :=
  lock_gotten w' = lock_gotten w ∧ server w' = server w ∧
  calls w' = calls w ∧ sleeps w' = sleeps w ∧ cache w' = cache w ∧
  matching_questions w' = matching_questions w ∧ progress w' = progress w ∧
  ∀ path, path ∉ cache_paths → files w' !! path = files w !! path.

(** ** The rest of the crawl *)

(** [list_chapters]: the chapter list of a subject, from the cache when the
    key is there, from the server otherwise. *)
Definition chapters_url (subject_id : string) : string :=
  BASE_URL ++ "/subjects/" ++ subject_id ++ "/chapters?limit=1000".

Definition list_chapters (subject_id cache_key : string) : M json :=
  cached <- gets (λ w, cache w !! cache_key) ;;
  match cached with
  | Some chapters => ret chapters
  | None =>
      chapters <- fetch (chapters_url subject_id) "GET" ;;
      (if truthy chapters then
         data <- py_get chapters "data" (JArr []) ;;
         modify (set_cache (insert cache_key data)) ;;;
         cache <- gets cache ;;
         save_cache_with_backup (JObj cache) CACHE_FILE BACKUP_FILE
       else ret tt) ;;;
      gets (λ w, default (JArr []) (cache w !! cache_key))
  end.

(** [len(v)]. *)
Definition py_len (v : json) : M Z :=
  match v with
  | JArr l => ret (Z.of_nat (length l))
  | JStr s => ret (Z.of_nat (String.length s))
  | JObj m => ret (Z.of_nat (size m))
  | _ => raise TypeError
  end.

(** [sum(len(chapter.get("questions", [])) for chapter in chapters)]. *)
Fixpoint total_questions (chapters : list json) : M Z :=
  match chapters with
  | [] => ret 0
  | chapter :: chapters' =>
      questions <- py_get chapter "questions" (JArr []) ;;
      n <- py_len questions ;;
      total <- total_questions chapters' ;;
      ret (n + total)
  end.

(** [matching_questions = []], the list of one call of [search_questions]. *)
Definition clear_matches (w : world) : world :=
  World (files w) (dirs w) (lock_gotten w) (lock_acquired w) (server w) (calls w)
        (sleeps w) (cache w) [] (progress w).

(** The world in which the crawl starts: the folder of the matches is
    made and the list of matches is empty (lines 147 to 149). *)
Definition crawl_start (w : world) : world :=
  clear_matches (made MATCHING_QUESTIONS_FOLDER w).

(** [search_questions].  [crawl] stands for awaiting [asyncio.gather] over
    the chapter tasks, whose course depends on the event loop; the progress
    bar of the command line is left out. *)
Definition search_questions (crawl : list json → M unit)
    (subject_id keywords cache_key : string) : M (list json) :=
  chapters <- list_chapters subject_id cache_key ;;
  if negb (truthy chapters) then ret []
  else
    makedirs MATCHING_QUESTIONS_FOLDER ;;;
    modify clear_matches ;;;
    chapter_list <- py_iter chapters ;;
    total_questions chapter_list ;;;
    try_except (crawl chapter_list) (λ _, true) (λ _, ret tt) ;;;
    gets matching_questions.

(** The loop of [fetch_with_retries] for any [initial_delay] and
    [max_delay]: the delays of [n] consecutive retries. *)
Fixpoint backoff_from (delay max_delay : Z) (n : nat) : list Z :=
  match n with
  | O => []
  | S n' => delay :: backoff_from (Z.min (delay * 2) max_delay) max_delay n'
  end.

(** How the loop ends on an attempt that is not a 429. *)
Definition outcome_of (a : attempt) : result json :=
  match request_once a with
  | Return v => Ret v
  | Propagate e => Raise e
  | Continue => Pending
  end.

(** No entry is lost from the cache, and no non-empty value is changed. *)
Definition cache_kept (w w' : world) : Prop :=
  (∀ k v, cache w !! k = Some v → truthy v = true → cache w' !! k = Some v) ∧
  (∀ k, is_Some (cache w !! k) → is_Some (cache w' !! k)).

(** A detail whose text holds the keyword, whatever the case. *)
Definition is_keyword_match (keywords : string) (question_details : json) : Prop :=
  ∃ text,
    (∀ w, question_text_of question_details w = (Ret (JStr text), w)) ∧
    str_in (lower keywords) (lower text) = true.

(** What one round of the loop, and so the loop, does to the cache, the
    progress count and the list of matches. *)
Definition crawl_effect (kw : string) (cb : bool) (n : nat) (r : result unit)
    (w w' : world) : Prop :=
  cache_kept w w' ∧
  (r = Ret tt → progress w' = (progress w + (if cb then n else 0))%nat) ∧
  (progress w ≤ progress w' ≤ progress w + (if cb then n else 0))%nat ∧
  ∃ found,
    matching_questions w' = (matching_questions w ++ found)%list ∧
    Forall (is_keyword_match kw) found.

(** A chapter as the listing of the server gives it: an object whose
    [questions], when there, is a list. *)
Definition chapter_with_questions (chapter : json) : Prop :=
  ∃ m l, chapter = JObj m ∧ default (JArr []) (m !! "questions") = JArr l.

(** The tables of [main.py]. *)
Definition SUBJECTS : gmap string string :=
  list_to_map
    [("Physics (Mains)", "615f0c729476412f48314dab");
     ("Chemistry (Mains)", "615f0cf69476412f48314dac");
     ("Maths (Mains)", "615f0d109476412f48314dad");
     ("Physics (Advanced)", "616056cd0283de43c87e3e15");
     ("Chemistry (Advanced)", "616057040283de43c87e3e16");
     ("Maths (Advanced)", "6160570c0283de43c87e3e17")].

Definition CACHE_KEYS : gmap string string :=
  list_to_map
    [("Physics (Mains)", "chapters_Physics");
     ("Chemistry (Mains)", "chapters_Chemistry");
     ("Maths (Mains)", "chapters_Maths");
     ("Physics (Advanced)", "chapters_Physics_Advanced");
     ("Chemistry (Advanced)", "chapters_Chemistry_Advanced");
     ("Maths (Advanced)", "chapters_Maths_Advanced")].

(** Unfolding of the monad. *)
Ltac run := unfold bind, ret, raise, modify, gets; simpl.

(** ** Properties of the retrying fetcher *)

Local Open Scope list_scope.

Lemma request_once_429 (a : attempt) :
  request_once a = Continue ↔ is_429 a = true.
Proof.
  destruct a as [status body | e]; simpl.
  - destruct (status =? 429) eqn:E429; [tauto |].
    destruct (400 <=? status); simpl; rewrite ?E429.
    + split; discriminate.
    + destruct body; simpl; rewrite ?E429; split; discriminate.
  - destruct e; simpl; try (split; discriminate).
    destruct (status =? 429); split; (discriminate || reflexivity).
Qed.

Lemma backoff_closed_form (n : nat) : ∀ k : nat,
  backoff (Z.min (2 ^ Z.of_nat k) 60) n =
  (λ i : nat, Z.min (2 ^ Z.of_nat (k + i)) 60) <$> seq 0 n.
Proof.
  induction n as [| n IH]; intros k; [reflexivity |].
  cbn [backoff seq fmap list_fmap]. rewrite Nat.add_0_r. f_equal.
  replace (Z.min (Z.min (2 ^ Z.of_nat k) 60 * 2) 60)
    with (Z.min (2 ^ Z.of_nat (S k)) 60).
  - rewrite IH, <- fmap_S_seq, <- list_fmap_compose.
    apply list_fmap_ext. intros _ i _. simpl.
    do 2 f_equal. lia.
  - rewrite Nat2Z.inj_succ, Z.pow_succ_r by lia.
    pose proof (Z.pow_pos_nonneg 2 (Z.of_nat k)). lia.
Qed.

Lemma backoff_delays_eq (n : nat) : backoff 1 n = backoff_delays n.
Proof. apply (backoff_closed_form n 0). Qed.

Lemma backoff_delays_lookup (n i : nat) (d : Z) :
  backoff_delays n !! i = Some d → d = Z.min (2 ^ Z.of_nat i) 60.
Proof.
  unfold backoff_delays. rewrite list_lookup_fmap.
  destruct (seq 0 n !! i) as [j |] eqn:E; [| discriminate].
  apply lookup_seq in E as [-> _]. simpl. congruence.
Qed.

Lemma backoff_delays_length (n : nat) : length (backoff_delays n) = n.
Proof. unfold backoff_delays. by rewrite length_fmap, length_seq. Qed.

(** Non-decreasing, doubling up to the cap, between 1 and 60. *)
Lemma backoff_delays_shape (n i : nat) (d : Z) :
  backoff_delays n !! i = Some d →
  1 ≤ d ≤ 60 ∧
  ∀ d', backoff_delays n !! S i = Some d' → d ≤ d' ∧ d' = Z.min (2 * d) 60.
Proof.
  intros Hd. apply backoff_delays_lookup in Hd as ->.
  pose proof (Z.pow_pos_nonneg 2 (Z.of_nat i)) as Hpos.
  split; [lia |]. intros d' Hd'. apply backoff_delays_lookup in Hd' as ->.
  rewrite Nat2Z.inj_succ, Z.pow_succ_r by lia. lia.
Qed.

(** A run of 429 answers is slept through with the doubling delays, and
    the loop goes on with what follows. *)
Lemma retry_loop_429 (pre : list attempt) : ∀ (script : list attempt) (delay : Z),
  Forall (λ a, is_429 a = true) pre →
  ∃ delay',
    retry_loop (pre ++ script) delay 60 =
    (let '(r, rest, slept) := retry_loop script delay' 60 in
     (r, rest, (backoff delay (length pre) ++ slept)%list)).
Proof.
  induction pre as [| a pre IH]; intros script delay Hpre.
  - exists delay. simpl. by destruct (retry_loop script delay 60) as [[r rest] slept].
  - apply Forall_cons in Hpre as [Ha Hpre].
    destruct (IH script (Z.min (delay * 2) 60) Hpre) as [delay' IH'].
    exists delay'. cbn [app retry_loop length backoff].
    apply request_once_429 in Ha. rewrite Ha, IH'.
    by destruct (retry_loop script delay' 60) as [[r rest] slept].
Qed.

(** The fetch on a script of 429 answers followed by an attempt that ends
    the loop. *)
Lemma fetch_after_429 (url method : string) (pre : list attempt) (a : attempt)
    (rest : list attempt) (r : result json) (w : world) :
  Forall (λ a, is_429 a = true) pre →
  (∀ delay, retry_loop (a :: rest) delay 60 = (r, rest, [])) →
  server w = pre ++ a :: rest →
  fetch url method w =
    (r, add_sleeps (backoff_delays (length pre))
          (set_server rest (add_call (method, url) w))).
Proof.
  intros Hpre Ha Hw. unfold fetch, fetch_with_retries. rewrite Hw.
  destruct (retry_loop_429 pre (a :: rest) 1 Hpre) as [delay' ->].
  rewrite Ha, app_nil_r, backoff_delays_eq. reflexivity.
Qed.

Lemma fetch_success (url method : string) (pre : list attempt) (status : Z)
    (v : json) (rest : list attempt) (w : world) :
  Forall (λ a, is_429 a = true) pre →
  status < 400 →
  server w = pre ++ Response status (Json v) :: rest →
  fetch url method w =
    (Ret v, add_sleeps (backoff_delays (length pre))
              (set_server rest (add_call (method, url) w))).
Proof.
  intros Hpre Hstatus Hw.
  apply (fetch_after_429 _ _ pre (Response status (Json v))); [done | | done].
  intros delay. cbn [retry_loop request_once].
  destruct (status =? 429) eqn:E429; [lia |].
  destruct (400 <=? status) eqn:E400; [lia | reflexivity].
Qed.

(** C6. On consecutive HTTP 429 answers [fetch_with_retries] sleeps 1, 2,
    4, ... seconds: the delays start at 1, never decrease, double on each
    retry and are capped at 60.  The fetch returns the body of the first
    answer that is a success with a JSON body.  The delay is local to the
    call: a later call starts again at 1. *)
Theorem fetch_backoff_then_success (url method : string) (pre : list attempt)
    (status : Z) (v : json) (rest : list attempt) (w : world) :
  Forall (λ a, is_429 a = true) pre →
  status < 400 →
  server w = pre ++ Response status (Json v) :: rest →
  ∃ w' slept,
    fetch url method w = (Ret v, w') ∧
    server w' = rest ∧
    sleeps w' = sleeps w ++ slept ∧
    slept = backoff_delays (length pre) ∧
    (pre ≠ [] → slept !! 0%nat = Some 1) ∧
    (∀ (i : nat) (d : Z), slept !! i = Some d →
       1 ≤ d ≤ 60 ∧
       ∀ d', slept !! S i = Some d' → d ≤ d' ∧ d' = Z.min (2 * d) 60) ∧
    ∀ url2 method2 pre2 status2 v2 rest2,
      Forall (λ a, is_429 a = true) pre2 →
      status2 < 400 →
      rest = pre2 ++ Response status2 (Json v2) :: rest2 →
      ∃ w'', fetch url2 method2 w' = (Ret v2, w'') ∧
             sleeps w'' = sleeps w' ++ backoff_delays (length pre2).
Proof.
  intros Hpre Hstatus Hw.
  eexists _, (backoff_delays (length pre)).
  split; [by apply (fetch_success _ _ pre status) |].
  split; [done |]. split; [done |]. split; [done |].
  split; [by destruct pre |].
  split.
  - intros i d Hd. by apply (backoff_delays_shape (length pre)).
  - intros url2 method2 pre2 status2 v2 rest2 Hpre2 Hstatus2 Hrest.
    eexists. split; [by apply (fetch_success _ _ pre2 status2) |]. reflexivity.
Qed.

(** C7. An HTTP error status other than 429 and a transport error make
    [fetch_with_retries] return [None] at once: the attempt is the last
    one and no sleep follows it.  Only a 429 makes the loop go round
    again. *)
Theorem fetch_error_returns_none (url method : string) (pre : list attempt)
    (a : attempt) (rest : list attempt) (w : world) :
  Forall (λ a, is_429 a = true) pre →
  (∃ status body, a = Response status body ∧ 400 ≤ status ∧ status ≠ 429) ∨
  (∃ e, a = Failed e ∧ is_ClientError e = true ∧ is_429 a = false) →
  server w = pre ++ a :: rest →
  ∃ w',
    fetch url method w = (Ret JNull, w') ∧
    server w' = rest ∧
    sleeps w' = sleeps w ++ backoff_delays (length pre) ∧
    calls w' = calls w ++ [(method, url)] ∧
    ∀ a', request_once a' = Continue ↔ is_429 a' = true.
Proof.
  intros Hpre Ha Hw. eexists. split.
  { apply (fetch_after_429 _ _ pre a); [done | | done].
    intros delay. cbn [retry_loop].
    destruct Ha as [(status & body & -> & H400 & H429) | (e & -> & He & H429)].
    - simpl. destruct (status =? 429) eqn:E429; [lia |].
      destruct (400 <=? status) eqn:E400; [| lia]. simpl. by rewrite ?E429.
    - simpl in *. destruct e; try discriminate; simpl.
      + by rewrite ?H429.
      + reflexivity. }
  split; [done |]. split; [done |]. split; [done |].
  apply request_once_429.
Qed.

(** ** Properties of the cache store *)


Lemma dir_exists_dirs (w : world) (d : string) :
  d ∈ dirs w → dir_exists w d = true.
Proof.
  intros Hd. unfold dir_exists. rewrite (bool_decide_eq_true_2 _ Hd).
  by rewrite orb_true_r.
Qed.

Lemma dir_exists_file (w : world) (path : string) :
  is_Some (files w !! path) → dir_exists w (dirname path) = true.
Proof.
  intros [data Hpath]. unfold dir_exists.
  rewrite (bool_decide_eq_true_2 (map_Exists _ _)); [by rewrite orb_true_r |].
  by exists path, data.
Qed.

Lemma made_self (d : string) (w : world) :
  all_slashes d = false → d ∈ dirs (made d w).
Proof.
  intros Hd. unfold made, add_dirs. cbn [dirs].
  destruct d as [| c d]; [discriminate |].
  cbn [String.length ancestors]. rewrite Hd.
  apply elem_of_union_r, elem_of_list_to_set, list_elem_of_here.
Qed.

Lemma dir_exists_made (d : string) (w w' : world) :
  dirs w' = dirs (made d w) → dir_exists w' d = true.
Proof.
  intros Hdirs. destruct (all_slashes d) eqn:Hd; [unfold dir_exists; by rewrite Hd |].
  apply dir_exists_dirs. rewrite Hdirs. by apply made_self.
Qed.

Lemma made_dirs (d d' : string) (w : world) : d' ∈ dirs w → d' ∈ dirs (made d w).
Proof. intros Hd. unfold made, add_dirs. simpl. by apply elem_of_union_l. Qed.

Lemma json_load_file_run (path : string) (w : world) :
  json_load_file path w =
  match files w !! path with
  | None => (Raise FileNotFoundError, w)
  | Some NotUtf8 => (Raise UnicodeDecodeError, w)
  | Some (Utf8 text) =>
      match loads text with
      | Some v => (Ret v, w)
      | None => (Raise (if too_deep text then RecursionError else JSONDecodeError), w)
      end
  end.
Proof.
  unfold json_load_file, read_text, json_loads, bind.
  destruct (files w !! path) as [[text |] |]; try reflexivity.
  by destruct (loads text).
Qed.

Lemma save_cache_atomic_copy (cache copy : json) (cache_file : string) (w : world) :
  loads (dumps None cache) = Some copy →
  dirname (cache_file ++ ".tmp")%string ≠ EmptyString →
  save_cache_atomic cache cache_file w =
  (if lock_gotten w then Ret tt else Raise ThreadError,
   set_lock_acquired false
     (set_files (saved copy cache_file)
        (made (dirname (cache_file ++ ".tmp")%string) w))).
Proof.
  intros Hcopy Hdir. unfold save_cache_atomic, json_loads.
  rewrite Hcopy. unfold makedirs.
  destruct (decide (dirname (cache_file ++ ".tmp")%string = EmptyString)); [done |].
  unfold InterProcessLock, try_finally, lock_acquire, lock_release, write_text,
    replace_file. run.
  rewrite (dir_exists_made _ w) by reflexivity.
  cbn [files set_files set_lock_acquired]. rewrite lookup_insert_eq.
  destruct w as [fs ds gotten acquired srv cls slp c mq pr]; simpl.
  by destruct gotten.
Qed.

Lemma save_cache_atomic_undumpable (cache : json) (cache_file : string) (w : world) :
  loads (dumps None cache) = None →
  save_cache_atomic cache cache_file w =
  (Raise (if too_deep (dumps None cache) then RecursionError else JSONDecodeError), w).
Proof.
  intros Hcopy. unfold save_cache_atomic, json_loads. by rewrite Hcopy.
Qed.

Lemma save_cache_atomic_run (cache : json) (cache_file : string) (w : world) :
  json_serializable cache →
  dirname (cache_file ++ ".tmp")%string ≠ EmptyString →
  save_cache_atomic cache cache_file w =
  (if lock_gotten w then Ret tt else Raise ThreadError,
   set_lock_acquired false
     (set_files (saved cache cache_file)
        (made (dirname (cache_file ++ ".tmp")%string) w))).
Proof. intros Hser. apply save_cache_atomic_copy, Hser. Qed.

(** [save_cache_with_backup] is the backup copy followed by
    [save_cache_atomic]. *)
Lemma save_cache_with_backup_split (cache : json) (cache_file backup_file : string) (w : world) :
  cache_file ≠ backup_file →
  dirname backup_file = dirname cache_file →
  save_cache_with_backup cache cache_file backup_file w =
  save_cache_atomic cache cache_file
    (set_files (λ fs, match fs !! cache_file with
                      | Some d => <[backup_file := d]> fs
                      | None => fs
                      end) w).
Proof.
  intros Hne Hdir. unfold save_cache_with_backup, path_exists, copy_file. run.
  destruct (files w !! cache_file) as [d |] eqn:E; simpl; rewrite ?E.
  - rewrite decide_False by done.
    rewrite Hdir, dir_exists_file by (by rewrite E).
    f_equal. destruct w; unfold set_files; simpl in *; by rewrite E.
  - f_equal. destruct w; unfold set_files; simpl in *; by rewrite E.
Qed.

Lemma save_cache_with_backup_run (cache : json) (cache_file backup_file : string) (w : world) :
  json_serializable cache →
  dirname (cache_file ++ ".tmp")%string ≠ EmptyString →
  cache_file ≠ backup_file →
  dirname backup_file = dirname cache_file →
  save_cache_with_backup cache cache_file backup_file w =
  (if lock_gotten w then Ret tt else Raise ThreadError,
   set_lock_acquired false
     (set_files (λ fs, saved cache cache_file
                         (match fs !! cache_file with
                          | Some d => <[backup_file := d]> fs
                          | None => fs
                          end))
        (made (dirname (cache_file ++ ".tmp")%string) w))).
Proof.
  intros Hser Hdir Hne Hbackup.
  rewrite save_cache_with_backup_split, save_cache_atomic_run by done.
  by destruct w.
Qed.

(** The same on the paths of the program. *)
Lemma save_cache_run (cache : json) (w : world) :
  json_serializable cache →
  save_cache_with_backup cache CACHE_FILE BACKUP_FILE w =
  (if lock_gotten w then Ret tt else Raise ThreadError,
   set_lock_acquired false
     (set_files (λ fs, saved cache CACHE_FILE
                         (match fs !! CACHE_FILE with
                          | Some d => <[BACKUP_FILE := d]> fs
                          | None => fs
                          end))
        (made "data" w))).
Proof.
  intros Hser.
  by rewrite save_cache_with_backup_run by (done || (vm_compute; discriminate)).
Qed.

Lemma dirname_cache_tmp : dirname (CACHE_FILE ++ ".tmp")%string ≠ EmptyString.
Proof. vm_compute. discriminate. Qed.

Lemma saved_lookup (cache : json) (cache_file : string) (fs : gmap string file_data) :
  saved cache cache_file fs !! cache_file = Some (Utf8 (dumps (Some 2%nat) cache)).
Proof. unfold saved. apply lookup_insert_eq. Qed.

(** C1. When the lock is not obtained within the 10 seconds, [acquire]
    returns [False], which [save_cache_atomic] does not look at: the cache
    file is rewritten all the same, and the error that reaches the caller is
    the [ThreadError] of releasing a lock that was never acquired. *)
Theorem save_cache_lock_timeout (cache : json) (w : world) :
  json_serializable cache →
  lock_gotten w = false →
  ∃ w',
    save_cache_with_backup cache CACHE_FILE BACKUP_FILE w = (Raise ThreadError, w') ∧
    files w' !! CACHE_FILE = Some (Utf8 (dumps (Some 2%nat) cache)) ∧
    ∃ w'',
      save_cache_atomic cache CACHE_FILE w = (Raise ThreadError, w'') ∧
      files w'' !! CACHE_FILE = Some (Utf8 (dumps (Some 2%nat) cache)).
Proof.
  intros Hser Hlock.
  rewrite save_cache_run, save_cache_atomic_run, Hlock
    by auto using dirname_cache_tmp.
  eexists. split; [reflexivity |]. split; [apply saved_lookup |].
  eexists. split; [reflexivity |]. apply saved_lookup.
Qed.

(** C4. Saving a serializable cache with [save_cache_with_backup] and then
    loading with [load_cache_with_fallback] gives the cache back. *)
Theorem load_after_save (cache : gmap string json) (w : world) :
  json_serializable (JObj cache) →
  ∃ r w',
    save_cache_with_backup (JObj cache) CACHE_FILE BACKUP_FILE w = (r, w') ∧
    (lock_gotten w = true → r = Ret tt) ∧
    load_cache_with_fallback CACHE_FILE BACKUP_FILE w' = (Ret (JObj cache), w').
Proof.
  intros Hser.
  rewrite save_cache_run by done.
  eexists _, _. split; [reflexivity |]. split; [by intros -> |].
  unfold load_cache_with_fallback, try_except.
  rewrite json_load_file_run. simpl. rewrite saved_lookup, (Hser (Some 2%nat)).
  reflexivity.
Qed.

Lemma load_backup_run (backup_file : string) (w : world) :
  loadable w backup_file →
  try_except (json_load_file backup_file) is_decode_or_missing
    (λ _, ret (JObj ∅)) w =
  (Ret (default (JObj ∅) (parsed w backup_file)), w).
Proof.
  unfold loadable, try_except, parsed. rewrite json_load_file_run.
  destruct (files w !! backup_file) as [[text |] |]; [| done | reflexivity].
  destruct (loads text); [reflexivity |]. intros Hdeep. by rewrite Hdeep.
Qed.

(** C5. The loader catches [JSONDecodeError] and [FileNotFoundError] and
    nothing else.  A cache file whose bytes are not UTF-8 makes it raise
    [UnicodeDecodeError], whatever the backup holds, and so does such a
    backup file when the cache file is absent or does not parse; a text
    that is nested too deeply makes it raise [RecursionError].  In none of
    these cases the backup, or the empty cache, is returned. *)
Theorem load_cache_raises (cache_file backup_file : string) (w : world) :
  (files w !! cache_file = Some NotUtf8 →
   load_cache_with_fallback cache_file backup_file w = (Raise UnicodeDecodeError, w)) ∧
  (∀ text, files w !! cache_file = Some (Utf8 text) →
           loads text = None → too_deep text = true →
   load_cache_with_fallback cache_file backup_file w = (Raise RecursionError, w)) ∧
  (parsed w cache_file = None → loadable w cache_file →
   (files w !! backup_file = Some NotUtf8 →
    load_cache_with_fallback cache_file backup_file w = (Raise UnicodeDecodeError, w)) ∧
   (∀ text, files w !! backup_file = Some (Utf8 text) →
            loads text = None → too_deep text = true →
    load_cache_with_fallback cache_file backup_file w = (Raise RecursionError, w))).
Proof.
  split; [| split].
  - intros Hfile. unfold load_cache_with_fallback, try_except at 1.
    by rewrite json_load_file_run, Hfile.
  - intros text Hfile Hnone Hdeep. unfold load_cache_with_fallback, try_except at 1.
    by rewrite json_load_file_run, Hfile, Hnone, Hdeep.
  - intros Hparsed Hload.
    assert (Hfirst : load_cache_with_fallback cache_file backup_file w =
              try_except (json_load_file backup_file) is_decode_or_missing
                (λ _, ret (JObj ∅)) w).
    { unfold load_cache_with_fallback, try_except at 1. rewrite json_load_file_run.
      unfold parsed, loadable in Hparsed, Hload.
      destruct (files w !! cache_file) as [[text |] |]; [| done | reflexivity].
      by rewrite Hparsed, (Hload Hparsed). }
    rewrite Hfirst. unfold try_except. rewrite json_load_file_run.
    split; [by intros -> | by intros text -> -> ->].
Qed.

(** X19. What the loader does when nothing but the two exceptions it
    catches comes up: it returns the content of the cache file if that
    parses, else the content of the backup file if that parses, else an
    empty cache, and changes nothing. *)
Theorem load_cache_fallback (cache_file backup_file : string) (w : world) :
  loadable w cache_file →
  (parsed w cache_file = None → loadable w backup_file) →
  load_cache_with_fallback cache_file backup_file w =
  (Ret (match parsed w cache_file, parsed w backup_file with
        | Some v, _ => v
        | None, Some v => v
        | None, None => JObj ∅
        end), w).
Proof.
  intros Hprimary Hbackup.
  unfold load_cache_with_fallback, try_except at 1.
  rewrite json_load_file_run.
  destruct (parsed w cache_file) as [v |] eqn:Hparsed;
    unfold parsed, loadable in Hparsed, Hprimary.
  - destruct (files w !! cache_file) as [[text |] |]; try discriminate.
    by rewrite Hparsed.
  - specialize (Hbackup eq_refl).
    destruct (files w !! cache_file) as [[text |] |]; [| done |];
      rewrite ?Hparsed, ?(Hprimary Hparsed);
      simpl; rewrite load_backup_run by done;
      by destruct (parsed w backup_file).
Qed.

(** ** Properties of the question cache *)

Lemma not_elem_of_cons_paths (path : string) :
  path ∉ cache_paths →
  path ≠ CACHE_FILE ∧ path ≠ BACKUP_FILE ∧
  path ≠ (CACHE_FILE ++ ".tmp")%string ∧ path ≠ (CACHE_FILE ++ ".lock")%string ∧ True.
Proof.
  unfold cache_paths. rewrite !not_elem_of_cons. tauto.
Qed.

Lemma touch_lookup_ne (lock path : string) (fs : gmap string file_data) :
  path ≠ lock → touch lock fs !! path = fs !! path.
Proof.
  intros Hne. unfold touch.
  destruct (fs !! lock); [done | by rewrite lookup_insert_ne].
Qed.

Lemma cache_backup_paths :
  CACHE_FILE ≠ BACKUP_FILE ∧ dirname BACKUP_FILE = dirname CACHE_FILE.
Proof. split; [vm_compute; discriminate | reflexivity]. Qed.

Lemma save_cache_with_backup_frame (c : json) (w : world) :
  cache_files_only w (save_cache_with_backup c CACHE_FILE BACKUP_FILE w).2.
Proof.
  rewrite save_cache_with_backup_split by apply cache_backup_paths.
  destruct (loads (dumps None c)) as [copy |] eqn:Hcopy.
  - rewrite (save_cache_atomic_copy c copy) by auto using dirname_cache_tmp.
    destruct w as [fs ds gotten acquired srv cls slp ch mq pr].
    unfold cache_files_only, set_lock_acquired, set_files, saved, made, add_dirs; simpl.
    repeat (split; [reflexivity |]).
    intros path (Hc & Hb & Ht & Hl & _)%not_elem_of_cons_paths.
    rewrite lookup_insert_ne, lookup_delete_ne, lookup_insert_ne by done.
    rewrite touch_lookup_ne by done.
    destruct (fs !! CACHE_FILE); [by rewrite lookup_insert_ne | done].
  - rewrite save_cache_atomic_undumpable by done.
    destruct w as [fs ds gotten acquired srv cls slp ch mq pr].
    unfold cache_files_only, set_files; simpl.
    repeat (split; [reflexivity |]).
    intros path (Hc & Hb & Ht & Hl & _)%not_elem_of_cons_paths.
    destruct (fs !! CACHE_FILE); [by rewrite lookup_insert_ne | done].
Qed.



Lemma fetch_frame (url method : string) (w : world) :
  let w' := (fetch url method w).2 in
  files w' = files w ∧ cache w' = cache w ∧ lock_gotten w' = lock_gotten w ∧
  matching_questions w' = matching_questions w ∧ progress w' = progress w ∧
  calls w' = calls w ++ [(method, url)].
Proof.
  unfold fetch, fetch_with_retries.
  by destruct (retry_loop (server w) 1 60) as [[r rest] slept].
Qed.

Lemma fetch_question_details_hit (question_id d : json) (w : world) :
  cache w !! cache_key_of question_id = Some d →
  truthy d = true →
  fetch_question_details question_id w = (Ret d, w).
Proof.
  intros Hd Ht. unfold fetch_question_details. run.
  rewrite Hd. simpl. by rewrite Ht.
Qed.

Lemma fetch_question_details_miss (question_id : json) (w : world) :
  truthy (default JNull (cache w !! cache_key_of question_id)) = false →
  fetch_question_details question_id w =
  match fetch (question_url question_id) "POST" w with
  | (Ret d, w1) =>
      if truthy d then
        match save_cache_with_backup
                (JObj (<[cache_key_of question_id := d]> (cache w1)))
                CACHE_FILE BACKUP_FILE
                (set_cache (insert (cache_key_of question_id) d) w1) with
        | (Ret _, w2) => (Ret d, w2)
        | (Raise e, w2) => (Raise e, w2)
        | (Pending, w2) => (Pending, w2)
        end
      else (Ret d, w1)
  | (Raise e, w1) => (Raise e, w1)
  | (Pending, w1) => (Pending, w1)
  end.
Proof.
  intros Hmiss. unfold fetch_question_details. run. rewrite Hmiss.
  destruct (fetch (question_url question_id) "POST" w) as [[d | e |] w1];
    [| reflexivity | reflexivity].
  destruct (truthy d); [| reflexivity].
  by destruct (save_cache_with_backup _ _ _ _) as [[[] | e |] w2].
Qed.

(** Whatever [fetch_question_details] does, it makes at most one call of
    the fetcher, leaves [matching_questions] alone and touches no file but
    those of the cache. *)
Lemma fetch_question_details_frame (question_id : json) (w : world) :
  let w' := (fetch_question_details question_id w).2 in
  matching_questions w' = matching_questions w ∧
  progress w' = progress w ∧
  lock_gotten w' = lock_gotten w ∧
  (calls w' = calls w ∨ calls w' = calls w ++ [("POST", question_url question_id)]) ∧
  ∀ path, path ∉ cache_paths → files w' !! path = files w !! path.
Proof.
  destruct (truthy (default JNull (cache w !! cache_key_of question_id))) eqn:Hlookup.
  - destruct (cache w !! cache_key_of question_id) as [d |] eqn:Hd; [| done].
    rewrite (fetch_question_details_hit question_id d) by done. simpl.
    repeat split; auto.
  - rewrite fetch_question_details_miss by done.
    pose proof (fetch_frame (question_url question_id) "POST" w) as Hfetch.
    destruct (fetch (question_url question_id) "POST" w) as [[d | e |] w1];
      simpl in Hfetch; destruct Hfetch as (Hf & Hc & Hl & Hm & Hp & Hcalls);
      try (simpl; rewrite Hf; by repeat split; auto).
    destruct (truthy d); [| simpl; rewrite Hf; by repeat split; auto].
    pose proof (save_cache_with_backup_frame
      (JObj (<[cache_key_of question_id := d]> (cache w1)))
      (set_cache (insert (cache_key_of question_id) d) w1)) as Hsave.
    destruct (save_cache_with_backup _ _ _ _) as [r w2].
    destruct Hsave as (Hl2 & _ & Hcalls2 & _ & _ & Hm2 & Hp2 & Hfiles2). simpl in *.
    assert (Hgoal : matching_questions w2 = matching_questions w ∧
      progress w2 = progress w ∧ lock_gotten w2 = lock_gotten w ∧
      (calls w2 = calls w ∨ calls w2 = calls w ++ [("POST", question_url question_id)]) ∧
      ∀ path, path ∉ cache_paths → files w2 !! path = files w !! path).
    { repeat split; try congruence.
      - right. congruence.
      - intros path Hpath. rewrite Hfiles2 by done. by rewrite Hf. }
    by destruct r as [[] | e |].
Qed.


(** C9. A question whose detail is in the cache is answered from the cache
    and nothing else happens: no call of the fetcher, no file written.  So
    when the question is fetched twice and the first fetch gives a detail,
    the second is served from the cache, and the two make at most one call
    of the fetcher.  When the detail is not in the cache and the fetcher
    gives one, it is stored under [question_<id>] and the cache, with the
    new entry, is written to the cache file. *)
Theorem fetch_question_details_cache_first (question_id : json) (w : world) :
  (∀ d, cache w !! cache_key_of question_id = Some d → truthy d = true →
        fetch_question_details question_id w = (Ret d, w) ∧
        fetch_question_details question_id
          (fetch_question_details question_id w).2 = (Ret d, w)) ∧
  (∀ d w1, fetch_question_details question_id w = (Ret d, w1) →
           truthy d = true →
           fetch_question_details question_id w1 = (Ret d, w1) ∧
           (length (calls w1) ≤ length (calls w) + 1)%nat) ∧
  (∀ d w1, truthy (default JNull (cache w !! cache_key_of question_id)) = false →
           fetch (question_url question_id) "POST" w = (Ret d, w1) →
           truthy d = true →
           json_serializable (JObj (<[cache_key_of question_id := d]> (cache w))) →
           ∃ r w2,
             fetch_question_details question_id w = (r, w2) ∧
             (lock_gotten w = true → r = Ret d) ∧
             cache_key_of question_id = ("question_" ++ py_str question_id)%string ∧
             cache w2 = <[cache_key_of question_id := d]> (cache w) ∧
             files w2 !! CACHE_FILE =
               Some (Utf8 (dumps (Some 2%nat) (JObj (cache w2))))).
Proof.
  split; [| split].
  - intros d Hd Ht.
    rewrite (fetch_question_details_hit question_id d) by done. simpl.
    split; [done |]. by apply fetch_question_details_hit.
  - intros d w1 Hrun Ht.
    pose proof (fetch_question_details_frame question_id w) as Hframe.
    rewrite Hrun in Hframe. simpl in Hframe.
    destruct Hframe as (_ & _ & _ & Hcalls & _).
    split.
    + apply fetch_question_details_hit; [| done].
      destruct (truthy (default JNull (cache w !! cache_key_of question_id)))
        eqn:Hlookup.
      * destruct (cache w !! cache_key_of question_id) as [d0 |] eqn:Hd0; [| done].
        rewrite (fetch_question_details_hit question_id d0) in Hrun by done.
        by inversion Hrun; subst.
      * rewrite fetch_question_details_miss in Hrun by done.
        pose proof (fetch_frame (question_url question_id) "POST" w) as Hfetch.
        destruct (fetch (question_url question_id) "POST" w) as [[d0 | e |] w0];
          try discriminate.
        destruct (truthy d0) eqn:Ht0.
        -- pose proof (save_cache_with_backup_frame
             (JObj (<[cache_key_of question_id := d0]> (cache w0)))
             (set_cache (insert (cache_key_of question_id) d0) w0)) as Hsave.
           destruct (save_cache_with_backup _ _ _ _) as [[[] | e |] w2];
             try discriminate.
           inversion Hrun; subst. simpl in Hsave.
           destruct Hsave as (_ & _ & _ & _ & -> & _). simpl.
           apply lookup_insert_eq.
        -- inversion Hrun; subst. congruence.
    + destruct Hcalls as [-> | ->]; rewrite ?length_app; simpl; lia.
  - intros d w1 Hmiss Hfetch Ht Hser.
    rewrite fetch_question_details_miss, Hfetch, Ht by done.
    pose proof (fetch_frame (question_url question_id) "POST" w) as Hframe.
    rewrite Hfetch in Hframe. simpl in Hframe.
    destruct Hframe as (Hf & Hc & Hl & _).
    rewrite Hc, save_cache_with_backup_run by auto using dirname_cache_tmp.
    simpl. rewrite Hl.
    destruct (lock_gotten w); eexists _, _; (split; [reflexivity |]);
      (split; [try done |]); (split; [reflexivity |]); simpl; rewrite Hc;
      (split; [reflexivity |]); apply saved_lookup.
Qed.

(** C10. When the detail is not in the cache and the fetcher answers
    [None], [fetch_question_details] returns [None] and the cache and the
    files are as they were. *)
Theorem fetch_question_details_unavailable (question_id : json) (w w1 : world) :
  truthy (default JNull (cache w !! cache_key_of question_id)) = false →
  fetch (question_url question_id) "POST" w = (Ret JNull, w1) →
  fetch_question_details question_id w = (Ret JNull, w1) ∧
  cache w1 = cache w ∧
  files w1 = files w ∧
  lock_acquired w1 = lock_acquired w.
Proof.
  intros Hmiss Hfetch.
  rewrite fetch_question_details_miss, Hfetch by done. simpl.
  split; [reflexivity |].
  unfold fetch, fetch_with_retries in Hfetch.
  destruct (retry_loop (server w) 1 60) as [[r rest] slept].
  by inversion Hfetch; subst.
Qed.

(** ** Properties of the crawler *)

Lemma append_String (c : ascii) (a post : string) :
  (String c a ++ post)%string = String c (a ++ post)%string.
Proof. reflexivity. Qed.


Lemma prefix_spec (a b : string) :
  String.prefix a b = true ↔ ∃ post, b = (a ++ post)%string.
Proof.
  revert a. induction b as [| c b IH]; intros [| c' a]; simpl.
  - split; [by exists EmptyString | done].
  - split; [done |]. intros [post Hpost]. by rewrite append_String in Hpost.
  - split; [by eexists | done].
  - destruct (ascii_dec c' c) as [-> | Hne].
    + rewrite IH. split; intros [post Hpost]; exists post;
        rewrite append_String in *; congruence.
    + split; [done |]. intros [post Hpost].
      rewrite append_String in Hpost. congruence.
Qed.

(** [str_in] is the substring test. *)
Lemma str_in_spec (a b : string) :
  str_in a b = true ↔ ∃ pre post, b = (pre ++ a ++ post)%string.
Proof.
  induction b as [| c b IH]; cbn [str_in].
  - rewrite orb_false_r, prefix_spec. split.
    + intros [post Hpost]. by exists EmptyString, post.
    + intros (pre & post & Hb). destruct pre as [| c' pre].
      * by exists post.
      * by rewrite append_String in Hb.
  - rewrite orb_true_iff, IH, (prefix_spec a (String c b)). split.
    + intros [[post Hpost] | (pre & post & Hb)].
      * by exists EmptyString, post.
      * exists (String c pre), post. by rewrite append_String, Hb.
    + intros (pre & post & Hb). destruct pre as [| c' pre].
      * left. by exists post.
      * right. exists pre, post. rewrite append_String in Hb. congruence.
Qed.

Lemma py_get_pure (v : json) (k : string) (dflt : json) (w : world) :
  (py_get v k dflt w).2 = w.
Proof. by destruct v. Qed.

Lemma question_text_of_pure (d : json) (w : world) :
  (question_text_of d w).2 = w.
Proof.
  unfold question_text_of, bind.
  pose proof (py_get_pure d "data" (JObj ∅) w) as H1.
  destruct (py_get d "data" (JObj ∅) w) as [[data | e |] w1]; simpl in H1; subst;
    try reflexivity.
  pose proof (py_get_pure data "question" (JObj ∅) w) as H2.
  destruct (py_get data "question" (JObj ∅) w) as [[q | e |] w2]; simpl in H2; subst;
    try reflexivity.
  apply py_get_pure.
Qed.

Lemma keyword_matches_pure (keywords : string) (text : json) (w : world) :
  (keyword_matches keywords text w).2 = w.
Proof. by destruct text. Qed.

Lemma keyword_matches_str (keywords text : string) (w : world) :
  keyword_matches keywords (JStr text) w =
  (Ret (str_in (lower keywords) (lower text)), w).
Proof. reflexivity. Qed.

Lemma process_question_split (sid kw : string) (cb : bool) (title qid : json) (w : world) :
  process_question sid kw cb title qid w =
  match fetch_question_details qid w with
  | (Ret d, w1) => after_details sid kw cb title d w1
  | (Raise e, w1) => (Raise e, w1)
  | (Pending, w1) => (Pending, w1)
  end.
Proof. reflexivity. Qed.

(** A matching question is appended, then written when the directory of
    the file is there; any other outcome leaves the list and the files
    alone. *)
Lemma after_details_run (sid kw : string) (cb : bool) (title d : json) (w : world) :
  (∃ text, truthy d = true ∧ question_text_of d w = (Ret (JStr text), w) ∧
           str_in (lower kw) (lower text) = true ∧
           after_details sid kw cb title d w =
           if dir_exists w (dirname (match_filename sid title))
           then (Ret tt,
                 (if cb then add_progress else id)
                   (set_files (insert (match_filename sid title)
                                      (Utf8 (dumps (Some 2%nat) d)))
                      (add_match d w)))
           else (Raise FileNotFoundError, add_match d w)) ∨
  ((truthy d = false ∨
    (∃ r, question_text_of d w = (r, w) ∧
          ∀ text, r = Ret (JStr text) → str_in (lower kw) (lower text) = false)) ∧
   ∃ r w', after_details sid kw cb title d w = (r, w') ∧
           files w' = files w ∧ matching_questions w' = matching_questions w ∧
           dirs w' = dirs w).
Proof.
  unfold after_details. destruct (truthy d) eqn:Ht.
  2: { right. split; [by left |]. destruct cb; by eexists _, _. }
  pose proof (question_text_of_pure d w) as Hpure.
  destruct (question_text_of d w) as [[qt | e |] wq] eqn:Hqt; simpl in Hpure; subst wq.
  2, 3: right; (split; [right; eexists; split; [done | done] |]);
        unfold bind; rewrite Hqt; by eexists _, _.
  destruct qt as [| b | n | text | l | m];
    try (right; (split; [right; eexists; split; [done | done] |]);
         unfold bind; rewrite Hqt; simpl; by eexists _, _).
  destruct (str_in (lower kw) (lower text)) eqn:Hin.
  - left. exists text. repeat split; try done.
    unfold bind. rewrite Hqt. simpl. rewrite Hin. unfold write_text, modify.
    change (dir_exists (add_match d w)) with (dir_exists w).
    destruct (dir_exists w _); [by destruct cb | reflexivity].
  - right. split.
    + right. eexists. split; [done |]. intros text' [= <-]. done.
    + unfold bind. rewrite Hqt. simpl. rewrite Hin. destruct cb; by eexists _, _.
Qed.









Lemma py_iter_pure (v : json) (w : world) : (py_iter v w).2 = w.
Proof. by destruct v. Qed.

(** C3. The match is appended to the list before its file is opened, and
    the file is opened in a directory that nothing has made when the name
    holds a slash: when the directory of the file of the chapter is not
    there, a matching question is appended, the write raises
    [FileNotFoundError], no file is written, the progress callback is not
    called and the questions that follow in the chapter are not looked
    at. *)
Theorem match_file_not_written (sid kw : string) (cb : bool) (title qid d : json)
    (text : string) (w0 w1 : world) :
  fetch_question_details qid w0 = (Ret d, w1) →
  truthy d = true →
  question_text_of d w1 = (Ret (JStr text), w1) →
  str_in (lower kw) (lower text) = true →
  dir_exists w1 (dirname (match_filename sid title)) = false →
  process_question sid kw cb title qid w0 = (Raise FileNotFoundError, add_match d w1) ∧
  matching_questions (add_match d w1) = matching_questions w1 ++ [d] ∧
  files (add_match d w1) !! match_filename sid title = None ∧
  progress (add_match d w1) = progress w1 ∧
  ∀ qids, for_each (qid :: qids) (process_question sid kw cb title) w0 =
          (Raise FileNotFoundError, add_match d w1).
Proof.
  intros Hfetch Ht Htext Hin Hdir.
  assert (Hrun : process_question sid kw cb title qid w0 =
                 (Raise FileNotFoundError, add_match d w1)).
  { rewrite process_question_split, Hfetch.
    destruct (after_details_run sid kw cb title d w1)
      as [(text' & _ & _ & _ & ->) | ([Hf | (r & Hr & Hno)] & _)].
    - by rewrite Hdir.
    - congruence.
    - rewrite Htext in Hr. injection Hr as <-.
      rewrite (Hno text eq_refl) in Hin. discriminate. }
  split; [exact Hrun |]. split; [reflexivity |]. split.
  - simpl. destruct (files w1 !! match_filename sid title) as [data |] eqn:Hfile;
      [| reflexivity].
    rewrite dir_exists_file in Hdir by (by rewrite Hfile). discriminate.
  - split; [reflexivity |]. intros qids. cbn [for_each]. unfold bind. by rewrite Hrun.
Qed.


(** C8. The crawler takes a question as a match exactly when the keyword,
    in lower case, occurs in the text of the question, in lower case; the
    matching question is the one appended to [matching_questions]. *)
Theorem keyword_match_is_substring (keywords text : string) (w : world) :
  keyword_matches keywords (JStr text) w =
    (Ret (str_in (lower keywords) (lower text)), w) ∧
  (str_in (lower keywords) (lower text) = true ↔
   ∃ pre post, lower text = (pre ++ lower keywords ++ post)%string) ∧
  (∀ sid cb title qid d w1,
     fetch_question_details qid w = (Ret d, w1) →
     truthy d = true →
     question_text_of d w1 = (Ret (JStr text), w1) →
     matching_questions (process_question sid keywords cb title qid w).2 =
     matching_questions w1 ++
       (if str_in (lower keywords) (lower text) then [d] else [])) ∧
  keyword_matches "newton" (JStr "Newton's Law") w = (Ret true, w) ∧
  keyword_matches "NEWTON" (JStr "Newton's Law") w = (Ret true, w) ∧
  keyword_matches "newton" (JStr "Gravity") w = (Ret false, w).
Proof.
  split; [reflexivity |]. split; [apply str_in_spec |].
  split; [| by repeat split].
  intros sid cb title qid d w1 Hfetch Ht Htext.
  rewrite process_question_split, Hfetch.
  destruct (after_details_run sid keywords cb title d w1)
    as [(text' & _ & Htext' & Hin & ->) | ([Hf | (r & Hr & Hno)] & r' & w' & -> & _ & Hm & _)].
  - rewrite Htext in Htext'. injection Htext' as <-. rewrite Hin.
    destruct (dir_exists w1 _); [by destruct cb | reflexivity].
  - congruence.
  - rewrite Htext in Hr. injection Hr as <-.
    rewrite (Hno text eq_refl). simpl. by rewrite Hm, app_nil_r.
Qed.

(** ** More on the retrying fetcher *)

Lemma retry_loop_429_from (pre : list attempt) :
  ∀ (script : list attempt) (delay max_delay : Z),
  Forall (λ a, is_429 a = true) pre →
  ∃ delay',
    retry_loop (pre ++ script) delay max_delay =
    (let '(r, rest, slept) := retry_loop script delay' max_delay in
     (r, rest, backoff_from delay max_delay (length pre) ++ slept)).
Proof.
  induction pre as [| a pre IH]; intros script delay max_delay Hpre.
  - exists delay. simpl. by destruct (retry_loop script delay max_delay) as [[r rest] slept].
  - apply Forall_cons in Hpre as [Ha Hpre].
    destruct (IH script (Z.min (delay * 2) max_delay) max_delay Hpre) as [delay' IH'].
    exists delay'. cbn [app retry_loop length backoff_from].
    apply request_once_429 in Ha. rewrite Ha, IH'.
    by destruct (retry_loop script delay' max_delay) as [[r rest] slept].
Qed.

Lemma backoff_from_closed_form (initial max_delay : Z) (n : nat) :
  0 < initial → initial ≤ max_delay →
  ∀ k : nat,
    backoff_from (Z.min (initial * 2 ^ Z.of_nat k) max_delay) max_delay n =
    (λ i : nat, Z.min (initial * 2 ^ Z.of_nat (k + i)) max_delay) <$> seq 0 n.
Proof.
  intros Hpos Hle. induction n as [| n IH]; intros k; [reflexivity |].
  cbn [backoff_from seq fmap list_fmap]. rewrite Nat.add_0_r. f_equal.
  replace (Z.min (Z.min (initial * 2 ^ Z.of_nat k) max_delay * 2) max_delay)
    with (Z.min (initial * 2 ^ Z.of_nat (S k)) max_delay).
  - rewrite IH, <- fmap_S_seq, <- list_fmap_compose.
    apply list_fmap_ext. intros _ i _. simpl.
    do 3 f_equal. lia.
  - rewrite Nat2Z.inj_succ, Z.pow_succ_r by lia.
    pose proof (Z.pow_pos_nonneg 2 (Z.of_nat k)). nia.
Qed.

Lemma fetch_with_retries_run (url method : string) (initial max_delay : Z)
    (pre : list attempt) (a : attempt) (rest : list attempt) (w : world) :
  Forall (λ a, is_429 a = true) pre →
  is_429 a = false →
  server w = pre ++ a :: rest →
  fetch_with_retries url method initial max_delay w =
    (outcome_of a,
     add_sleeps (backoff_from initial max_delay (length pre))
       (set_server rest (add_call (method, url) w))).
Proof.
  intros Hpre Ha Hw. unfold fetch_with_retries. rewrite Hw.
  destruct (retry_loop_429_from pre (a :: rest) initial max_delay Hpre) as [delay' ->].
  cbn [retry_loop]. unfold outcome_of.
  destruct (request_once a) eqn:Hreq; rewrite ?app_nil_r; try reflexivity.
  apply request_once_429 in Hreq. congruence.
Qed.

(** X1. For any [initial_delay] and [max_delay] with
    [0 < initial_delay <= max_delay], the delays slept on consecutive 429
    answers are [initial_delay * 2^i] capped at [max_delay]: they never
    decrease and never exceed [max_delay], and the call ends on the first
    attempt that is not a 429. *)
Theorem fetch_with_retries_any_delays (url method : string) (initial max_delay : Z)
    (pre : list attempt) (a : attempt) (rest : list attempt) (w : world) :
  0 < initial → initial ≤ max_delay →
  Forall (λ a, is_429 a = true) pre →
  is_429 a = false →
  server w = pre ++ a :: rest →
  ∃ w' slept,
    fetch_with_retries url method initial max_delay w = (outcome_of a, w') ∧
    outcome_of a ≠ Pending ∧
    server w' = rest ∧
    sleeps w' = sleeps w ++ slept ∧
    slept = (λ i : nat, Z.min (initial * 2 ^ Z.of_nat i) max_delay) <$> seq 0 (length pre) ∧
    Forall (λ d, initial ≤ d ≤ max_delay) slept ∧
    ∀ (i : nat) d d', slept !! i = Some d → slept !! S i = Some d' → d ≤ d'.
Proof.
  intros Hpos Hle Hpre Ha Hw.
  assert (Hclosed : backoff_from initial max_delay (length pre) =
    (λ i : nat, Z.min (initial * 2 ^ Z.of_nat i) max_delay) <$> seq 0 (length pre)).
  { pose proof (backoff_from_closed_form initial max_delay (length pre) Hpos Hle 0) as H.
    simpl in H. rewrite Z.mul_1_r, Z.min_l in H by done. exact H. }
  assert (Hlookup : ∀ (i : nat) d,
    ((λ i : nat, Z.min (initial * 2 ^ Z.of_nat i) max_delay) <$> seq 0 (length pre)) !! i
      = Some d → d = Z.min (initial * 2 ^ Z.of_nat i) max_delay).
  { intros i d. rewrite list_lookup_fmap.
    destruct (seq 0 (length pre) !! i) as [j |] eqn:E; [| discriminate].
    apply lookup_seq in E as [-> _]. simpl. congruence. }
  eexists _, _. split; [by apply fetch_with_retries_run |].
  split.
  { unfold outcome_of. destruct (request_once a) eqn:Hreq; try discriminate.
    apply request_once_429 in Hreq. congruence. }
  split; [reflexivity |]. split; [reflexivity |]. split; [exact Hclosed |].
  rewrite Hclosed. split.
  - apply Forall_lookup. intros i d Hd. apply Hlookup in Hd as ->.
    pose proof (Z.pow_pos_nonneg 2 (Z.of_nat i)). nia.
  - intros i d d' Hd Hd'. apply Hlookup in Hd as ->. apply Hlookup in Hd' as ->.
    rewrite Nat2Z.inj_succ, Z.pow_succ_r by lia.
    pose proof (Z.pow_pos_nonneg 2 (Z.of_nat i)). nia.
Qed.

(** X2. The fetcher never gives up on 429: as long as every answer is a
    429 it has not returned, however many there were, and it has slept
    once for each. *)
Theorem fetch_keeps_retrying_on_429 (url method : string) (pre : list attempt) (w : world) :
  Forall (λ a, is_429 a = true) pre →
  server w = pre →
  ∃ w',
    fetch url method w = (Pending, w') ∧
    server w' = [] ∧
    sleeps w' = sleeps w ++ backoff_delays (length pre) ∧
    length (sleeps w') = (length (sleeps w) + length pre)%nat.
Proof.
  intros Hpre Hw. unfold fetch, fetch_with_retries.
  rewrite Hw, <- (app_nil_r pre).
  destruct (retry_loop_429 pre [] 1 Hpre) as [delay' ->]. cbn [retry_loop].
  rewrite !app_nil_r, backoff_delays_eq.
  eexists. split; [reflexivity |]. split; [reflexivity |]. split; [reflexivity |].
  simpl. by rewrite length_app, backoff_delays_length.
Qed.

(** X3. What is not an [aiohttp.ClientError] is not handled: a timeout of
    the session ([asyncio.TimeoutError]) and a success answer whose body
    does not parse as JSON come out of [fetch_with_retries] as exceptions,
    without a retry; a success answer with the wrong content type gives
    [None]. *)
Theorem fetch_unhandled_exceptions (url method : string) (pre : list attempt)
    (a : attempt) (rest : list attempt) (w : world) :
  Forall (λ a, is_429 a = true) pre →
  server w = pre ++ a :: rest →
  (∀ e, a = Failed e → is_ClientError e = false →
        (fetch url method w).1 = Raise e) ∧
  (a = Failed TimeoutError → (fetch url method w).1 = Raise TimeoutError) ∧
  (∀ status, a = Response status BadJson → status < 400 →
        (fetch url method w).1 = Raise JSONDecodeError) ∧
  (∀ status, a = Response status NotJson → status < 400 →
        (fetch url method w).1 = Ret JNull) ∧
  (is_429 a = false → server (fetch url method w).2 = rest).
Proof.
  intros Hpre Hw.
  assert (Hrun : is_429 a = false → fetch url method w =
    (outcome_of a, add_sleeps (backoff_from 1 60 (length pre))
                     (set_server rest (add_call (method, url) w)))).
  { intros Ha. by apply fetch_with_retries_run. }
  assert (Hfailed : ∀ e, a = Failed e → is_ClientError e = false →
                         (fetch url method w).1 = Raise e).
  { intros e -> He. rewrite Hrun; [| by destruct e]. simpl. unfold outcome_of. simpl.
    by destruct e. }
  split; [exact Hfailed |]. split; [intros Ha; by apply Hfailed |].
  split; [| split].
  - intros status -> Hs. rewrite Hrun; simpl; [| apply Z.eqb_neq; lia].
    unfold outcome_of. simpl.
    destruct (status =? 429) eqn:E; [lia |].
    by destruct (400 <=? status) eqn:E'; [lia |].
  - intros status -> Hs. rewrite Hrun; simpl; [| apply Z.eqb_neq; lia].
    unfold outcome_of. simpl.
    destruct (status =? 429) eqn:E; [lia |].
    destruct (400 <=? status) eqn:E'; [lia |]. simpl. by rewrite ?E.
  - intros Ha. by rewrite Hrun.
Qed.

(** ** More on the cache store *)

Lemma saved_lookup_ne (cache : json) (cache_file path : string)
    (fs : gmap string file_data) :
  path ≠ cache_file → path ≠ (cache_file ++ ".tmp")%string →
  path ≠ (cache_file ++ ".lock")%string →
  saved cache cache_file fs !! path = fs !! path.
Proof.
  intros Hc Ht Hl. unfold saved.
  rewrite lookup_insert_ne, lookup_delete_ne, lookup_insert_ne by done.
  by apply touch_lookup_ne.
Qed.

Lemma length_append (a b : string) :
  String.length (a ++ b)%string = (String.length a + String.length b)%nat.
Proof.
  induction a as [| c a IH]; [reflexivity |].
  rewrite append_String. simpl. by rewrite IH.
Qed.

Lemma saved_lookup_tmp (cache : json) (cache_file : string) (fs : gmap string file_data) :
  saved cache cache_file fs !! (cache_file ++ ".tmp")%string = None.
Proof.
  unfold saved. rewrite lookup_insert_ne.
  - apply lookup_delete_eq.
  - intros H. apply (f_equal String.length) in H.
    rewrite length_append in H. simpl in H. lia.
Qed.

Lemma saved_lookup_lock (cache : json) (cache_file : string) (fs : gmap string file_data) :
  is_Some (saved cache cache_file fs !! (cache_file ++ ".lock")%string).
Proof.
  assert (Hlen : ∀ suffix, String.length suffix = 5%nat →
                 cache_file ≠ (cache_file ++ suffix)%string).
  { intros suffix Hs H. apply (f_equal String.length) in H.
    rewrite length_append in H. lia. }
  assert (Hne : (cache_file ++ ".tmp")%string ≠ (cache_file ++ ".lock")%string).
  { intros H. apply (f_equal String.length) in H.
    rewrite !length_append in H. simpl in H. lia. }
  unfold saved.
  rewrite lookup_insert_ne by (by apply Hlen).
  rewrite lookup_delete_ne, lookup_insert_ne by done.
  unfold touch. destruct (fs !! (cache_file ++ ".lock")%string) eqn:E.
  - by rewrite E.
  - by rewrite lookup_insert_eq.
Qed.

(** X4. However it ends, [save_cache_with_backup] leaves no temporary file
    behind and the lock object released; the lock file is there; files
    other than those of the cache store, the cache in memory and the logs
    are as they were. *)
Theorem save_leaves_no_temporary_file (cache : json) (w : world) :
  json_serializable cache →
  files (save_cache_with_backup cache CACHE_FILE BACKUP_FILE w).2
    !! (CACHE_FILE ++ ".tmp")%string = None ∧
  lock_acquired (save_cache_with_backup cache CACHE_FILE BACKUP_FILE w).2 = false ∧
  is_Some (files (save_cache_with_backup cache CACHE_FILE BACKUP_FILE w).2
             !! (CACHE_FILE ++ ".lock")%string) ∧
  cache_files_only w (save_cache_with_backup cache CACHE_FILE BACKUP_FILE w).2.
Proof.
  intros Hser. split; [| split; [| split]].
  - rewrite save_cache_run by done.
    apply saved_lookup_tmp.
  - by rewrite save_cache_run by done.
  - rewrite save_cache_run by done.
    apply saved_lookup_lock.
  - apply save_cache_with_backup_frame.
Qed.

(** X5. The backup is the cache file as it was before the save.  After two
    saves the backup holds the first cache; if the cache file is then cut
    short or damaged so that [json.load] turns it down with
    [JSONDecodeError], loading gives the first cache back. *)
Theorem backup_holds_previous_cache (c1 c2 : json) (w : world) :
  json_serializable c1 → json_serializable c2 →
  files (save_cache_with_backup c1 CACHE_FILE BACKUP_FILE w).2 !! BACKUP_FILE =
    match files w !! CACHE_FILE with
    | Some d => Some d
    | None => files w !! BACKUP_FILE
    end ∧
  ∀ w2,
    w2 = (save_cache_with_backup c2 CACHE_FILE BACKUP_FILE
            (save_cache_with_backup c1 CACHE_FILE BACKUP_FILE w).2).2 →
    files w2 !! CACHE_FILE = Some (Utf8 (dumps (Some 2%nat) c2)) ∧
    files w2 !! BACKUP_FILE = Some (Utf8 (dumps (Some 2%nat) c1)) ∧
    ∀ damaged, loads damaged = None → too_deep damaged = false →
      (load_cache_with_fallback CACHE_FILE BACKUP_FILE
         (set_files (insert CACHE_FILE (Utf8 damaged)) w2)).1 = Ret c1.
Proof.
  intros Hser1 Hser2.
  assert (Hbackup : ∀ c fs, saved c CACHE_FILE fs !! BACKUP_FILE = fs !! BACKUP_FILE).
  { intros c fs. by apply saved_lookup_ne. }
  rewrite (save_cache_run c1) by done.
  split.
  - simpl. rewrite Hbackup.
    destruct (files w !! CACHE_FILE); [apply lookup_insert_eq | done].
  - intros w2 ->.
    rewrite (save_cache_run c2) by done.
    simpl. rewrite !saved_lookup.
    split; [reflexivity |].
    assert (Hb : saved c2 CACHE_FILE
                   (<[BACKUP_FILE := Utf8 (dumps (Some 2%nat) c1)]>
                      (saved c1 CACHE_FILE
                         match files w !! CACHE_FILE with
                         | Some d => <[BACKUP_FILE:=d]> (files w)
                         | None => files w
                         end)) !! BACKUP_FILE = Some (Utf8 (dumps (Some 2%nat) c1))).
    { rewrite Hbackup. apply lookup_insert_eq. }
    split; [exact Hb |].
    intros damaged Hdamaged Hdeep.
    unfold load_cache_with_fallback, try_except at 1.
    rewrite json_load_file_run. simpl. rewrite lookup_insert_eq, Hdamaged, Hdeep. simpl.
    rewrite load_backup_run.
    + unfold parsed. simpl. rewrite lookup_insert_ne by done.
      rewrite !saved_lookup, Hb. simpl. by rewrite (Hser1 (Some 2%nat)).
    + unfold loadable. simpl. rewrite lookup_insert_ne by done.
      rewrite !saved_lookup, Hb. by rewrite (Hser1 (Some 2%nat)).
Qed.



(** ** More on the question cache *)

Lemma fetch_question_details_cache (qid : json) (w : world) :
  cache (fetch_question_details qid w).2 = cache w ∨
  (truthy (default JNull (cache w !! cache_key_of qid)) = false ∧
   ∃ d, truthy d = true ∧
        cache (fetch_question_details qid w).2 = <[cache_key_of qid := d]> (cache w)).
Proof.
  destruct (truthy (default JNull (cache w !! cache_key_of qid))) eqn:Hlookup.
  - destruct (cache w !! cache_key_of qid) as [d |] eqn:Hd; [| done].
    left. by rewrite (fetch_question_details_hit qid d).
  - rewrite fetch_question_details_miss by done.
    pose proof (fetch_frame (question_url qid) "POST" w) as Hfetch.
    destruct (fetch (question_url qid) "POST" w) as [[d | e |] w1];
      simpl in Hfetch; destruct Hfetch as (_ & Hc & _); [| by left ..].
    destruct (truthy d) eqn:Ht; [| by left].
    pose proof (save_cache_with_backup_frame
      (JObj (<[cache_key_of qid := d]> (cache w1)))
      (set_cache (insert (cache_key_of qid) d) w1)) as Hsave.
    destruct (save_cache_with_backup _ _ _ _) as [r w2].
    destruct Hsave as (_ & _ & _ & _ & Hc2 & _). simpl in Hc2.
    right. split; [done |]. exists d. split; [done |].
    rewrite <- Hc, <- Hc2. by destruct r as [[] | e |].
Qed.

Lemma cache_kept_refl (w w' : world) : cache w' = cache w → cache_kept w w'.
Proof. intros H. unfold cache_kept. rewrite H. by split. Qed.

Lemma cache_kept_trans (w1 w2 w3 : world) :
  cache_kept w1 w2 → cache_kept w2 w3 → cache_kept w1 w3.
Proof. intros [H1 H1'] [H2 H2']. split; eauto. Qed.

Lemma fetch_question_details_kept (qid : json) (w : world) :
  cache_kept w (fetch_question_details qid w).2.
Proof.
  destruct (fetch_question_details_cache qid w) as [H | (Hfalsy & d & Ht & H)].
  - by apply cache_kept_refl.
  - unfold cache_kept. rewrite H. split.
    + intros k v Hk Hv. destruct (decide (k = cache_key_of qid)) as [-> | Hne].
      * rewrite Hk in Hfalsy. simpl in Hfalsy. congruence.
      * by rewrite lookup_insert_ne.
    + intros k Hk. destruct (decide (k = cache_key_of qid)) as [-> | Hne].
      * rewrite lookup_insert_eq. eauto.
      * by rewrite lookup_insert_ne.
Qed.

(** X7. The test of the cache is the truth value of the entry, not its
    presence: an empty value under the key of a question ([{}], [null],
    ...) is not served, the question is fetched again. *)
Theorem empty_cached_detail_is_fetched_again (qid d : json) (w : world) :
  cache w !! cache_key_of qid = Some d →
  truthy d = false →
  calls (fetch_question_details qid w).2 = calls w ++ [("POST", question_url qid)] ∧
  ∀ d' w1, fetch (question_url qid) "POST" w = (Ret d', w1) → truthy d' = false →
           fetch_question_details qid w = (Ret d', w1).
Proof.
  intros Hd Hfalsy.
  assert (Hmiss : truthy (default JNull (cache w !! cache_key_of qid)) = false)
    by (by rewrite Hd).
  rewrite fetch_question_details_miss by done. split.
  - pose proof (fetch_frame (question_url qid) "POST" w) as Hfetch.
    destruct (fetch (question_url qid) "POST" w) as [[d' | e |] w1];
      simpl in Hfetch; destruct Hfetch as (_ & _ & _ & _ & _ & Hcalls); try done.
    destruct (truthy d'); [| done].
    pose proof (save_cache_with_backup_frame
      (JObj (<[cache_key_of qid := d']> (cache w1)))
      (set_cache (insert (cache_key_of qid) d') w1)) as Hsave.
    destruct (save_cache_with_backup _ _ _ _) as [r w2].
    destruct Hsave as (_ & _ & Hcalls2 & _). simpl in Hcalls2.
    destruct r as [[] | e |]; simpl; congruence.
  - intros d' w1 -> Hd'. by rewrite Hd'.
Qed.

(** ** More on the crawler *)

Lemma py_get_any_world (v : json) (k : string) (dflt : json) (w w' : world) :
  py_get v k dflt w' = ((py_get v k dflt w).1, w') ∧
  (py_get v k dflt w).1 ≠ Pending.
Proof. by destruct v. Qed.

(** The text of a question does not depend on the world. *)
Lemma question_text_of_any_world (d : json) (w w' : world) :
  question_text_of d w' = ((question_text_of d w).1, w') ∧
  (question_text_of d w).1 ≠ Pending.
Proof.
  unfold question_text_of, bind.
  destruct (py_get_any_world d "data" (JObj ∅) w w') as [-> H1].
  destruct (py_get d "data" (JObj ∅) w) as [[data | e |] w1] eqn:E1;
    simpl in *; [| done | done].
  destruct (py_get_any_world data "question" (JObj ∅) w1 w') as [-> H2].
  destruct (py_get data "question" (JObj ∅) w1) as [[q | e |] w2] eqn:E2;
    simpl in *; [| done | done].
  by destruct (py_get_any_world q "text" (JStr EmptyString) w2 w') as [-> H3].
Qed.

(** The ways [after_details] ends: a match appended and written, a match
    appended and the write failed, no match, an exception before the
    test. *)
Lemma after_details_cases (sid kw : string) (cb : bool) (title d : json) (w : world) :
  (is_keyword_match kw d ∧
   (after_details sid kw cb title d w =
    (Ret tt,
     (if cb then add_progress else id)
       (set_files (insert (match_filename sid title) (Utf8 (dumps (Some 2%nat) d)))
          (add_match d w))) ∨
    after_details sid kw cb title d w = (Raise FileNotFoundError, add_match d w))) ∨
  after_details sid kw cb title d w = (Ret tt, (if cb then add_progress else id) w) ∨
  (∃ e, after_details sid kw cb title d w = (Raise e, w)).
Proof.
  unfold after_details. destruct (truthy d) eqn:Ht.
  2: { right. left. by destruct cb. }
  pose proof (question_text_of_pure d w) as Hpure.
  pose proof (question_text_of_any_world d w) as Hany.
  destruct (question_text_of d w) as [[qt | e |] wq] eqn:Hqt; simpl in Hpure; subst wq.
  - destruct qt as [| b | n | text | l | m];
      try (right; right; exists AttributeError; unfold bind; by rewrite Hqt).
    destruct (str_in (lower kw) (lower text)) eqn:Hin.
    + left. split.
      * exists text. split; [| done]. intros w'. by destruct (Hany w') as [-> _].
      * unfold bind. rewrite Hqt. simpl. rewrite Hin. unfold write_text, modify.
        destruct (dir_exists _ _); [left; by destruct cb | by right].
    + right. left. unfold bind. rewrite Hqt. simpl. rewrite Hin. by destruct cb.
  - right. right. exists e. unfold bind. by rewrite Hqt.
  - by destruct (Hany w) as [_ Hp].
Qed.

Lemma process_question_effect (sid kw : string) (cb : bool) (title qid : json) (w : world) :
  crawl_effect kw cb 1 (process_question sid kw cb title qid w).1 w
    (process_question sid kw cb title qid w).2.
Proof.
  rewrite process_question_split.
  pose proof (fetch_question_details_frame qid w) as Hframe.
  pose proof (fetch_question_details_kept qid w) as Hkept.
  destruct (fetch_question_details qid w) as [[d | e |] w1]; simpl in Hframe, Hkept;
    destruct Hframe as (Hm & Hp & _).
  2, 3: (split; [done |]; split; [done |]; split; [simpl; destruct cb; lia |];
         exists []; simpl; by rewrite app_nil_r, Hm).
  destruct (after_details_cases sid kw cb title d w1)
    as [[Hmatch [-> | ->]] | [-> | [e ->]]]; cbn [fst snd].
  - split; [| split; [| split]].
    + eapply cache_kept_trans; [done |]. apply cache_kept_refl. by destruct cb.
    + intros _. destruct cb; unfold add_progress, set_files, add_match, id; simpl; lia.
    + destruct cb; unfold add_progress, set_files, add_match, id; simpl; lia.
    + exists [d]. split; [| by constructor].
      destruct cb; unfold add_progress, set_files, add_match, id; simpl; by rewrite Hm.
  - split; [| split; [| split]].
    + eapply cache_kept_trans; [done |]. by apply cache_kept_refl.
    + done.
    + destruct cb; unfold add_match; simpl; lia.
    + exists [d]. split; [| by constructor]. unfold add_match; simpl. by rewrite Hm.
  - split; [| split; [| split]].
    + eapply cache_kept_trans; [done |]. apply cache_kept_refl. by destruct cb.
    + intros _. destruct cb; unfold add_progress, id; simpl; lia.
    + destruct cb; unfold add_progress, id; simpl; lia.
    + exists []. split; [| done].
      destruct cb; unfold add_progress, id; simpl; by rewrite app_nil_r, Hm.
  - split; [done |]. split; [done |]. split; [simpl; destruct cb; lia |].
    exists []. simpl. by rewrite app_nil_r, Hm.
Qed.

Lemma for_each_cons {A} (x : A) (l : list A) (body : A → M unit) (w : world) :
  for_each (x :: l) body w =
  match body x w with
  | (Ret _, w1) => for_each l body w1
  | (Raise e, w1) => (Raise e, w1)
  | (Pending, w1) => (Pending, w1)
  end.
Proof. reflexivity. Qed.

Lemma for_each_effect (sid kw : string) (cb : bool) (title : json) (qids : list json) :
  ∀ w, crawl_effect kw cb (length qids)
         (for_each qids (process_question sid kw cb title) w).1 w
         (for_each qids (process_question sid kw cb title) w).2.
Proof.
  induction qids as [| qid qids IH]; intros w.
  - simpl. split; [by apply cache_kept_refl |]. split; [destruct cb; simpl; lia |].
    split; [destruct cb; simpl; lia |]. exists []. by rewrite app_nil_r.
  - rewrite for_each_cons. cbn [length].
    pose proof (process_question_effect sid kw cb title qid w) as H1.
    destruct (process_question sid kw cb title qid w) as [[[] | e |] w1];
      simpl in H1; destruct H1 as (Hk1 & Hr1 & Hb1 & found1 & Hm1 & Hf1).
    2, 3: (unfold crawl_effect; cbn [fst snd];
           split; [done |]; split; [done |];
           split; [destruct cb; simpl in *; lia |]; by exists found1).
    specialize (Hr1 eq_refl).
    destruct (IH w1) as (Hk2 & Hr2 & Hb2 & found2 & Hm2 & Hf2).
    split; [by eapply cache_kept_trans |].
    split; [intros Hr; rewrite (Hr2 Hr), Hr1; destruct cb; simpl; lia |].
    split; [destruct cb; simpl in *; lia |].
    exists (found1 ++ found2). rewrite Hm2, Hm1, app_assoc.
    split; [done | by apply Forall_app].
Qed.

(** A chapter either stops before the loop, with the cache, the matches,
    the progress count and the files as they were, or it is the loop over
    the question ids of the answer. *)
Lemma process_chapter_loop (sid kw : string) (cb : bool) (chapter : json) (w : world) :
  ∃ w1,
    cache w1 = cache w ∧ matching_questions w1 = matching_questions w ∧
    progress w1 = progress w ∧ files w1 = files w ∧
    ((∃ r, process_chapter sid kw cb chapter w = (r, w1)) ∨
     (∃ title qids,
        process_chapter sid kw cb chapter w =
        for_each qids (process_question sid kw cb title) w1)).
Proof.
  remember (process_chapter sid kw cb chapter w) as run eqn:Hrun.
  assert (Hstop : ∀ (r : result unit) w1,
    run = (r, w1) →
    cache w1 = cache w → matching_questions w1 = matching_questions w →
    progress w1 = progress w → files w1 = files w →
    ∃ w1',
      cache w1' = cache w ∧ matching_questions w1' = matching_questions w ∧
      progress w1' = progress w ∧ files w1' = files w ∧
      ((∃ r', run = (r', w1')) ∨
       (∃ title qids, run = for_each qids (process_question sid kw cb title) w1'))).
  { intros r w1 Hr Hc Hm Hp Hf. exists w1. repeat split; try done. left. by exists r. }
  unfold process_chapter in Hrun.
  destruct chapter as [| b | n | s0 | l | m];
    try (by apply (Hstop (Raise TypeError) w)).
  cbn [py_getitem] in Hrun.
  destruct (m !! "_id") as [chapter_id |]; [| by apply (Hstop (Raise KeyError) w)].
  destruct (m !! "title") as [title |]; [| by apply (Hstop (Raise KeyError) w)].
  unfold bind at 1 2 3 in Hrun. cbn [ret] in Hrun.
  pose proof (fetch_frame (BASE_URL ++ "/chapters/" ++ py_str chapter_id ++ "/details")%string
                "GET" w) as Hfetch.
  destruct (fetch _ "GET" w) as [[response | e |] w1]; simpl in Hfetch;
    destruct Hfetch as (Hf & Hc & _ & Hm & Hp & _);
    [| by apply (Hstop (Raise e) w1) | by apply (Hstop Pending w1)].
  destruct (truthy response); [| by apply (Hstop (Ret tt) w1)].
  unfold bind at 1 in Hrun.
  pose proof (py_get_pure response "data" (JObj ∅) w1) as H1.
  destruct (py_get response "data" (JObj ∅) w1) as [[data | e |] w2];
    simpl in H1; subst w2;
    [| by apply (Hstop (Raise e) w1) | by apply (Hstop Pending w1)].
  unfold bind at 1 in Hrun.
  pose proof (py_get_pure data "questions" (JArr []) w1) as H2.
  destruct (py_get data "questions" (JArr []) w1) as [[questions | e |] w2];
    simpl in H2; subst w2;
    [| by apply (Hstop (Raise e) w1) | by apply (Hstop Pending w1)].
  unfold bind at 1 in Hrun.
  pose proof (py_iter_pure questions w1) as H3.
  destruct (py_iter questions w1) as [[qids | e |] w2];
    simpl in H3; subst w2;
    [| by apply (Hstop (Raise e) w1) | by apply (Hstop Pending w1)].
  exists w1. repeat split; try done. right. by exists title, qids.
Qed.

(** X8. Crawling a chapter loses nothing from the cache: every key that
    was there is still there, and every non-empty value is unchanged,
    however the chapter ends. *)
Theorem process_chapter_keeps_cache (sid kw : string) (cb : bool) (chapter : json)
    (w : world) :
  (∀ k v, cache w !! k = Some v → truthy v = true →
          cache (process_chapter sid kw cb chapter w).2 !! k = Some v) ∧
  (∀ k, is_Some (cache w !! k) →
        is_Some (cache (process_chapter sid kw cb chapter w).2 !! k)) ∧
  (∀ qid k, k ≠ cache_key_of qid →
            cache (fetch_question_details qid w).2 !! k = cache w !! k).
Proof.
  assert (Hkept : cache_kept w (process_chapter sid kw cb chapter w).2).
  { destruct (process_chapter_loop sid kw cb chapter w)
      as (w1 & Hc & _ & _ & _ & [[r ->] | (title & qids & ->)]).
    - by apply cache_kept_refl.
    - eapply cache_kept_trans; [by apply cache_kept_refl |].
      apply for_each_effect. }
  destruct Hkept as [H1 H2]. split; [exact H1 |]. split; [exact H2 |].
  intros qid k Hne.
  destruct (fetch_question_details_cache qid w) as [-> | (_ & d & _ & ->)]; [done |].
  by rewrite lookup_insert_ne.
Qed.

(** X9. The filter lets nothing else through: whatever a chapter appends
    to [matching_questions] is a detail whose text holds the keyword, case
    apart, and what was in the list stays in front, in order. *)
Theorem process_chapter_appends_only_matches (sid kw : string) (cb : bool)
    (chapter : json) (w : world) :
  ∃ found,
    matching_questions (process_chapter sid kw cb chapter w).2 =
      matching_questions w ++ found ∧
    Forall (is_keyword_match kw) found ∧
    ∀ d, d ∈ found →
      ∃ text pre post,
        question_text_of d w = (Ret (JStr text), w) ∧
        lower text = (pre ++ lower kw ++ post)%string.
Proof.
  assert (Hfound : ∃ found,
    matching_questions (process_chapter sid kw cb chapter w).2 =
      matching_questions w ++ found ∧ Forall (is_keyword_match kw) found).
  { destruct (process_chapter_loop sid kw cb chapter w)
      as (w1 & _ & Hm & _ & _ & [[r ->] | (title & qids & ->)]).
    - exists []. by rewrite app_nil_r.
    - destruct (for_each_effect sid kw cb title qids w1)
        as (_ & _ & _ & found & Hfound & Hall).
      exists found. by rewrite Hfound, Hm. }
  destruct Hfound as (found & Hm & Hall). exists found.
  split; [done |]. split; [done |].
  intros d Hd. rewrite Forall_forall in Hall.
  destruct (Hall d Hd) as (text & Htext & Hin).
  apply str_in_spec in Hin as (pre & post & Hin). by exists text, pre, post.
Qed.

(** X10. The progress callback is called once for each question of the
    loop, matched or not, when the loop runs to its end; never more than
    that when it is cut short; never when there is no callback. *)
Theorem progress_once_per_question (sid kw : string) (cb : bool) (title : json)
    (qids : list json) (w : world) :
  ((for_each qids (process_question sid kw cb title) w).1 = Ret tt →
   progress (for_each qids (process_question sid kw cb title) w).2 =
     (progress w + (if cb then length qids else 0))%nat) ∧
  (progress w ≤ progress (for_each qids (process_question sid kw cb title) w).2
     ≤ progress w + (if cb then length qids else 0))%nat.
Proof.
  destruct (for_each_effect sid kw cb title qids w) as (_ & Hr & Hb & _).
  by split.
Qed.

(** X11. A chapter that cannot be crawled: without [_id] or [title] it
    raises [KeyError], when it is no object [TypeError], in both cases
    before any request; when the fetcher gives nothing for its details the
    chapter is passed over in silence, with no match, no progress and no
    change of the cache. *)
Theorem process_chapter_edge_cases (sid kw : string) (cb : bool) (chapter : json)
    (w : world) :
  (∀ m, chapter = JObj m → m !! "_id" = None ∨ m !! "title" = None →
        process_chapter sid kw cb chapter w = (Raise KeyError, w)) ∧
  ((∀ m, chapter ≠ JObj m) →
        process_chapter sid kw cb chapter w = (Raise TypeError, w)) ∧
  (∀ m chapter_id title response w1,
     chapter = JObj m → m !! "_id" = Some chapter_id → m !! "title" = Some title →
     fetch (BASE_URL ++ "/chapters/" ++ py_str chapter_id ++ "/details")%string "GET" w
       = (Ret response, w1) →
     truthy response = false →
     process_chapter sid kw cb chapter w = (Ret tt, w1) ∧
     matching_questions w1 = matching_questions w ∧ progress w1 = progress w ∧
     cache w1 = cache w ∧ files w1 = files w).
Proof.
  split; [| split].
  - intros m -> [Hid | Htitle]; unfold process_chapter; cbn [py_getitem].
    + by rewrite Hid.
    + rewrite Htitle. by destruct (m !! "_id").
  - intros Hno. destruct chapter; try reflexivity. by destruct (Hno m).
  - intros m chapter_id title response w1 -> Hid Htitle Hfetch Hfalsy.
    pose proof (fetch_frame (BASE_URL ++ "/chapters/" ++ py_str chapter_id ++ "/details")%string
                  "GET" w) as Hframe.
    rewrite Hfetch in Hframe. simpl in Hframe.
    destruct Hframe as (Hf & Hc & _ & Hm & Hp & _).
    split; [| done].
    unfold process_chapter. cbn [py_getitem]. rewrite Hid, Htitle.
    unfold bind at 1 2 3. cbn [ret]. by rewrite Hfetch, Hfalsy.
Qed.

(** ** The chapter list *)

Lemma list_chapters_hit (sid key : string) (v : json) (w : world) :
  cache w !! key = Some v → list_chapters sid key w = (Ret v, w).
Proof. intros Hv. unfold list_chapters. run. by rewrite Hv. Qed.

Lemma list_chapters_miss (sid key : string) (w : world) :
  cache w !! key = None →
  list_chapters sid key w =
  match fetch (chapters_url sid) "GET" w with
  | (Ret chapters, w1) =>
      if truthy chapters then
        match chapters with
        | JObj r =>
            match save_cache_with_backup
                    (JObj (<[key := default (JArr []) (r !! "data")]> (cache w1)))
                    CACHE_FILE BACKUP_FILE
                    (set_cache (insert key (default (JArr []) (r !! "data"))) w1) with
            | (Ret _, w2) => (Ret (default (JArr []) (cache w2 !! key)), w2)
            | (Raise e, w2) => (Raise e, w2)
            | (Pending, w2) => (Pending, w2)
            end
        | _ => (Raise AttributeError, w1)
        end
      else (Ret (default (JArr []) (cache w1 !! key)), w1)
  | (Raise e, w1) => (Raise e, w1)
  | (Pending, w1) => (Pending, w1)
  end.
Proof.
  intros Hmiss. unfold list_chapters. run. rewrite Hmiss.
  destruct (fetch (chapters_url sid) "GET" w) as [[chapters | e |] w1];
    [| reflexivity | reflexivity].
  destruct (truthy chapters); [| reflexivity].
  by destruct chapters as [| b | n | s0 | l | r].
Qed.

(** X12. When the chapter list is not in the cache and the server answers
    with an object, its [data] (the empty list when there is none) is
    stored under the key and written to the cache file, and it is what
    [list_chapters] returns; a second call is then served from the cache
    with no request, also when what was stored is the empty list. *)
Theorem list_chapters_caches_answer (sid key : string) (r : gmap string json)
    (w w1 : world) :
  cache w !! key = None →
  fetch (chapters_url sid) "GET" w = (Ret (JObj r), w1) →
  truthy (JObj r) = true →
  json_serializable (JObj (<[key := default (JArr []) (r !! "data")]> (cache w))) →
  ∃ res w2,
    list_chapters sid key w = (res, w2) ∧
    (lock_gotten w = true → res = Ret (default (JArr []) (r !! "data"))) ∧
    cache w2 = <[key := default (JArr []) (r !! "data")]> (cache w) ∧
    files w2 !! CACHE_FILE = Some (Utf8 (dumps (Some 2%nat) (JObj (cache w2)))) ∧
    list_chapters sid key w2 = (Ret (default (JArr []) (r !! "data")), w2).
Proof.
  intros Hmiss Hfetch Ht Hser.
  pose proof (fetch_frame (chapters_url sid) "GET" w) as Hframe.
  rewrite Hfetch in Hframe. simpl in Hframe. destruct Hframe as (_ & Hc & Hl & _).
  rewrite list_chapters_miss, Hfetch, Ht by done.
  rewrite Hc, save_cache_with_backup_run by auto using dirname_cache_tmp.
  simpl. rewrite Hl.
  destruct (lock_gotten w); eexists _, _; (split; [reflexivity |]); simpl;
    rewrite ?Hc, ?lookup_insert_eq; (split; [done |]); (split; [reflexivity |]);
    (split; [apply saved_lookup |]);
    apply list_chapters_hit; simpl; by rewrite Hc, lookup_insert_eq.
Qed.

(** X13. An empty chapter list in the cache is final: [list_chapters]
    serves it without a request, and [search_questions] returns the empty
    list at once, whatever the server would say now; the world is as it
    was. *)
Theorem empty_chapter_list_is_final (crawl : list json → M unit)
    (sid kw key : string) (v : json) (w : world) :
  cache w !! key = Some v →
  truthy v = false →
  list_chapters sid key w = (Ret v, w) ∧
  search_questions crawl sid kw key w = (Ret [], w).
Proof.
  intros Hv Hfalsy. split; [by apply list_chapters_hit |].
  unfold search_questions, bind at 1.
  by rewrite (list_chapters_hit sid key v), Hfalsy.
Qed.

(** X14. When the chapter list is not in the cache and the fetcher gives
    nothing, [list_chapters] returns the empty list and stores nothing;
    [search_questions] returns the empty list without starting the crawl;
    the next call asks the server again. *)
Theorem list_chapters_failed_fetch (crawl : list json → M unit)
    (sid kw key : string) (v : json) (w w1 : world) :
  cache w !! key = None →
  fetch (chapters_url sid) "GET" w = (Ret v, w1) →
  truthy v = false →
  list_chapters sid key w = (Ret (JArr []), w1) ∧
  cache w1 = cache w ∧ files w1 = files w ∧
  search_questions crawl sid kw key w = (Ret [], w1) ∧
  calls (list_chapters sid key w1).2 =
    calls w ++ [("GET", chapters_url sid); ("GET", chapters_url sid)].
Proof.
  intros Hmiss Hfetch Hfalsy.
  pose proof (fetch_frame (chapters_url sid) "GET" w) as Hframe.
  rewrite Hfetch in Hframe. simpl in Hframe.
  destruct Hframe as (Hf & Hc & _ & _ & _ & Hcalls).
  assert (Hmiss1 : cache w1 !! key = None) by (by rewrite Hc).
  assert (Hrun : list_chapters sid key w = (Ret (JArr []), w1)).
  { rewrite list_chapters_miss, Hfetch, Hfalsy by done. by rewrite Hmiss1. }
  split; [exact Hrun |]. split; [done |]. split; [done |]. split.
  - unfold search_questions, bind at 1. by rewrite Hrun.
  - rewrite list_chapters_miss by done.
    pose proof (fetch_frame (chapters_url sid) "GET" w1) as Hframe1.
    destruct (fetch (chapters_url sid) "GET" w1) as [[v1 | e |] w2];
      simpl in Hframe1; destruct Hframe1 as (_ & _ & _ & _ & _ & Hcalls1);
      [| simpl; by rewrite Hcalls1, Hcalls, <- app_assoc ..].
    destruct (truthy v1); [| simpl; by rewrite Hcalls1, Hcalls, <- app_assoc].
    destruct v1 as [| b | n | s0 | l | r];
      try (simpl; by rewrite Hcalls1, Hcalls, <- app_assoc).
    pose proof (save_cache_with_backup_frame
      (JObj (<[key := default (JArr []) (r !! "data")]> (cache w2)))
      (set_cache (insert key (default (JArr []) (r !! "data"))) w2)) as Hsave.
    destruct (save_cache_with_backup _ _ _ _) as [res w3].
    destruct Hsave as (_ & _ & Hcalls3 & _). simpl in Hcalls3.
    assert (calls w3 = calls w ++ [("GET", chapters_url sid); ("GET", chapters_url sid)])
      by (by rewrite Hcalls3, Hcalls1, Hcalls, <- app_assoc).
    by destruct res as [[] | e |].
Qed.

(** ** The search *)

Lemma search_questions_cached (crawl : list json → M unit) (sid kw key : string)
    (chapters : json) (w : world) :
  cache w !! key = Some chapters →
  truthy chapters = true →
  search_questions crawl sid kw key w =
  match py_iter chapters (crawl_start w) with
  | (Ret chapter_list, w1) =>
      match total_questions chapter_list w1 with
      | (Ret _, w2) =>
          match crawl chapter_list w2 with
          | (Pending, w3) => (Pending, w3)
          | (_, w3) => (Ret (matching_questions w3), w3)
          end
      | (Raise e, w2) => (Raise e, w2)
      | (Pending, w2) => (Pending, w2)
      end
  | (Raise e, w1) => (Raise e, w1)
  | (Pending, w1) => (Pending, w1)
  end.
Proof.
  intros Hc Ht. unfold search_questions, bind at 1.
  rewrite (list_chapters_hit sid key chapters), Ht by done. simpl.
  unfold makedirs. rewrite decide_False by done.
  unfold bind at 1 2. cbn [ret modify]. unfold bind at 1.
  change (clear_matches (made MATCHING_QUESTIONS_FOLDER w)) with (crawl_start w).
  destruct (py_iter chapters (crawl_start w)) as [[chapter_list | e |] w1];
    [| reflexivity ..].
  unfold bind at 1.
  destruct (total_questions chapter_list w1) as [[n | e |] w2]; [| reflexivity ..].
  unfold bind, try_except.
  by destruct (crawl chapter_list w2) as [[[] | e |] w3].
Qed.

Lemma crawl_start_folder (w : world) :
  MATCHING_QUESTIONS_FOLDER ∈ dirs (crawl_start w).
Proof.
  change (dirs (crawl_start w)) with (dirs (made MATCHING_QUESTIONS_FOLDER w)).
  by apply made_self.
Qed.

Lemma total_questions_good (chapters : list json) (w : world) :
  Forall chapter_with_questions chapters →
  ∃ n, total_questions chapters w = (Ret n, w).
Proof.
  induction 1 as [| c chapters (m & l & -> & Hq) _ (n & IH)]; [by exists 0 |].
  exists (Z.of_nat (length l) + n). cbn [total_questions py_get]. unfold bind, ret.
  rewrite Hq. cbn [py_len]. unfold ret. by rewrite IH.
Qed.

Lemma total_questions_raises (good : list json) (c : json) (rest : list json) (w : world) :
  Forall chapter_with_questions good →
  (∀ m, c ≠ JObj m) →
  total_questions (good ++ c :: rest) w = (Raise AttributeError, w).
Proof.
  intros Hgood Hc. induction Hgood as [| g good (m & l & -> & Hq) _ IH].
  - cbn [app total_questions]. unfold bind.
    destruct c; try reflexivity. by destruct (Hc m).
  - cbn [app total_questions py_get]. unfold bind, ret.
    rewrite Hq. cbn [py_len]. unfold ret. by rewrite IH.
Qed.

(** X15. Data of the wrong shape is not caught: when the server answers
    the chapter listing with something that is not an object, or when the
    chapter list holds something that is not an object, [search_questions]
    raises [AttributeError] to its caller, before any chapter is crawled. *)
Theorem search_questions_raises_on_wrong_shape (crawl : list json → M unit)
    (sid kw key : string) (w : world) :
  (∀ v w1, cache w !! key = None →
           fetch (chapters_url sid) "GET" w = (Ret v, w1) →
           truthy v = true → (∀ r, v ≠ JObj r) →
           list_chapters sid key w = (Raise AttributeError, w1) ∧
           search_questions crawl sid kw key w = (Raise AttributeError, w1) ∧
           cache w1 = cache w) ∧
  (∀ good c rest,
           cache w !! key = Some (JArr (good ++ c :: rest)) →
           Forall chapter_with_questions good → (∀ m, c ≠ JObj m) →
           search_questions crawl sid kw key w =
             (Raise AttributeError, crawl_start w)).
Proof.
  split.
  - intros v w1 Hmiss Hfetch Ht Hshape.
    pose proof (fetch_frame (chapters_url sid) "GET" w) as Hframe.
    rewrite Hfetch in Hframe. simpl in Hframe. destruct Hframe as (_ & Hc & _).
    assert (Hrun : list_chapters sid key w = (Raise AttributeError, w1)).
    { rewrite list_chapters_miss, Hfetch, Ht by done.
      destruct v; try reflexivity. by destruct (Hshape m). }
    split; [exact Hrun |]. split; [| done].
    unfold search_questions, bind at 1. by rewrite Hrun.
  - intros good c rest Hcache Hgood Hc.
    rewrite (search_questions_cached crawl sid kw key (JArr (good ++ c :: rest)))
      by (by destruct good).
    cbn [py_iter]. unfold ret. by rewrite total_questions_raises.
Qed.

(** X16. Once the chapter list is there and well formed, [search_questions]
    does not raise, whatever happens in the crawl: it returns the list of
    matches as the crawl left it.  The list is new for each call, so what
    an earlier call found is not in it, and the crawl starts with the
    folder of the matches made. *)
Theorem search_questions_returns_the_matches (crawl : list json → M unit)
    (sid kw key : string) (chapters : list json) (r : result unit) (w w2 : world) :
  cache w !! key = Some (JArr chapters) →
  chapters ≠ [] →
  Forall chapter_with_questions chapters →
  crawl chapters (crawl_start w) = (r, w2) →
  r ≠ Pending →
  search_questions crawl sid kw key w = (Ret (matching_questions w2), w2) ∧
  matching_questions (crawl_start w) = [] ∧
  MATCHING_QUESTIONS_FOLDER ∈ dirs (crawl_start w).
Proof.
  intros Hcache Hne Hgood Hcrawl Hr.
  split; [| split; [reflexivity | apply crawl_start_folder]].
  rewrite (search_questions_cached crawl sid kw key (JArr chapters))
    by (by destruct chapters).
  cbn [py_iter]. unfold ret.
  destruct (total_questions_good chapters (crawl_start w) Hgood) as [n ->].
  rewrite Hcrawl. by destruct r as [[] | e |].
Qed.

(** ** The tables of the window *)

(** X17. [run_search] reads the subject id and the cache key of the
    chosen subject from [SUBJECTS] and [CACHE_KEYS].  Every subject with
    a cache key has an id, no two subjects share a cache key, and no
    cache key of a chapter list is the cache key of a question: the
    chapter lists and the question details never overwrite each other in
    the cache. *)
Theorem cache_keys_are_separate (name key : string) :
  CACHE_KEYS !! name = Some key →
  is_Some (SUBJECTS !! name) ∧
  (∀ name', CACHE_KEYS !! name' = Some key → name' = name) ∧
  (∀ question_id, cache_key_of question_id ≠ key).
Proof.
  intros Hkey. apply elem_of_list_to_map_2 in Hkey.
  repeat (apply elem_of_cons in Hkey as [[= -> ->] | Hkey]);
    [.. | by apply elem_of_nil in Hkey].
  all: split; [by vm_compute; eexists |].
  all: split; [| intros qid; unfold cache_key_of; rewrite append_String; discriminate].
  all: intros name' Hkey'; apply elem_of_list_to_map_2 in Hkey'.
  all: repeat (apply elem_of_cons in Hkey' as [[= -> ] | Hkey']); try done.
  all: by apply elem_of_nil in Hkey'.
Qed.

End Engine.

(** ** Properties of the crawl under [asyncio.gather] *)

Local Open Scope list_scope.




Lemma finished_no_matches (tasks : list (list step)) :
  forallb finished tasks = true → concat (matches_of <$> tasks) = [].
Proof.
  induction tasks as [| [| s task] tasks IH]; [done | | done].
  cbn [forallb finished andb fmap list_fmap concat matches_of app]. exact IH.
Qed.

Lemma matches_of_insert (tasks : list (list step)) : ∀ (i : nat)
    (task task' : list step) (found : list json),
  tasks !! i = Some task →
  matches_of task = found ++ matches_of task' →
  concat (matches_of <$> tasks) ≡ₚ
  found ++ concat (matches_of <$> <[i := task']> tasks).
Proof.
  induction tasks as [| t tasks IH]; intros i task task' found Hi Hm; [done |].
  destruct i as [| i].
  - injection Hi as ->. cbn [insert list_insert fmap list_fmap concat].
    change (list_fmap _ _ matches_of tasks) with (matches_of <$> tasks).
    by rewrite Hm, (assoc_L app).
  - cbn [insert list_insert fmap list_fmap concat].
    change (list_fmap _ _ matches_of tasks) with (matches_of <$> tasks).
    change (list_fmap _ _ matches_of (list_insert i task' tasks))
      with (matches_of <$> <[i := task']> tasks).
    rewrite (IH i task task' found Hi Hm).
    rewrite !(assoc_L app). apply Permutation_app_tail, Permutation_app_comm.
Qed.

Lemma gather_returns_all (schedule : list nat) : ∀ (tasks tasks1 : list (list step))
    (matching found : list json),
  gather schedule tasks matching = (Ret tt, tasks1, found) →
  forallb finished tasks1 = true ∧
  found ≡ₚ matching ++ concat (matches_of <$> tasks).
Proof.
  induction schedule as [| i schedule IH]; intros tasks tasks1 matching found Hrun.
  - cbn [gather] in Hrun. destruct (forallb finished tasks) eqn:Hall; [| discriminate].
    injection Hrun as <- <-. split; [done |].
    by rewrite (finished_no_matches tasks Hall), (right_id_L [] app).
  - cbn [gather] in Hrun. destruct (forallb finished tasks) eqn:Hall.
    { injection Hrun as <- <-. split; [done |].
      by rewrite (finished_no_matches tasks Hall), (right_id_L [] app). }
    destruct (tasks !! i) as [[| [| d | e] task] |] eqn:Hi; try discriminate;
      try exact (IH _ _ _ _ Hrun).
    + destruct (IH _ _ _ _ Hrun) as [Hfin Hperm]. split; [done |].
      rewrite Hperm. apply Permutation_app_head.
      by rewrite (matches_of_insert tasks i (Await :: task) task [] Hi).
    + destruct (IH _ _ _ _ Hrun) as [Hfin Hperm]. split; [done |].
      rewrite Hperm, <- (assoc_L app). apply Permutation_app_head.
      by rewrite (matches_of_insert tasks i (Append d :: task) task [d] Hi).
Qed.


Lemma no_throw_insert (tasks : list (list step)) (i : nat) (s : step) (task : list step) :
  tasks !! i = Some (s :: task) →
  (∀ e, s ≠ Throw e) →
  Forall (λ task, ∀ e, Throw e ∉ task) (<[i := task]> tasks) →
  Forall (λ task, ∀ e, Throw e ∉ task) tasks.
Proof.
  intros Hi Hs Hall. apply Forall_lookup. intros j t Hj e He.
  destruct (decide (i = j)) as [<- | Hne].
  - rewrite Hi in Hj. injection Hj as <-.
    apply elem_of_cons in He as [He | He]; [by destruct (Hs e) |].
    refine (proj1 (Forall_lookup _ _) Hall i task _ e He).
    apply list_lookup_insert_eq. by eapply lookup_lt_Some.
  - refine (proj1 (Forall_lookup _ _) Hall j t _ e He).
    by rewrite list_lookup_insert_ne.
Qed.

Lemma gather_returns_no_throw (schedule : list nat) : ∀ (tasks tasks1 : list (list step))
    (matching found : list json),
  gather schedule tasks matching = (Ret tt, tasks1, found) →
  Forall (λ task, ∀ e, Throw e ∉ task) tasks.
Proof.
  assert (Hbase : ∀ tasks, forallb finished tasks = true →
                  Forall (λ task : list step, ∀ e, Throw e ∉ task) tasks).
  { intros tasks Hall. apply Forall_forall. intros t Ht e He.
    rewrite forallb_forall in Hall. apply list_elem_of_In, Hall in Ht.
    destruct t; [by apply elem_of_nil in He | done]. }
  induction schedule as [| i schedule IH]; intros tasks tasks1 matching found Hrun.
  - cbn [gather] in Hrun. destruct (forallb finished tasks) eqn:Hall; [| discriminate].
    by apply Hbase.
  - cbn [gather] in Hrun. destruct (forallb finished tasks) eqn:Hall; [by apply Hbase |].
    destruct (tasks !! i) as [[| [| d | e] task] |] eqn:Hi; try discriminate;
      try exact (IH _ _ _ _ Hrun).
    + by apply (no_throw_insert tasks i Await task Hi), (IH _ _ _ _ Hrun).
    + by apply (no_throw_insert tasks i (Append d) task Hi), (IH _ _ _ _ Hrun).
Qed.

(** X18.  When the crawl ends without an exception, every chapter task
    has run to its end and none of them raised: [search_questions]
    returns every match of every chapter, each one once. *)
Theorem search_without_exception_returns_every_match (schedule : list nat)
    (tasks : list (list step)) (found : list json) :
  search_questions_gather schedule tasks = (Ret found, None) →
  found ≡ₚ concat (matches_of <$> tasks) ∧
  Forall (λ task, ∀ e, Throw e ∉ task) tasks ∧
  forallb finished (gather schedule tasks []).1.2 = true.
Proof.
  unfold search_questions_gather.
  destruct (gather schedule tasks []) as [[[[] | e |] tasks1] matching] eqn:Hrun;
    [| discriminate ..].
  intros [= <-]. destruct (gather_returns_all _ _ _ _ _ Hrun) as [Hfin Hperm].
  split; [exact Hperm |]. split; [| exact Hfin].
  exact (gather_returns_no_throw _ _ _ _ _ Hrun).
Qed.

Lemma search_without_exception_witness :
  [JStr "a"; JStr "c"; JStr "b"] ≡ₚ
  concat (matches_of <$> [[Await; Append (JStr "a"); Await; Append (JStr "b")];
                          [Await; Append (JStr "c")]]).
Proof.
  refine (proj1 (search_without_exception_returns_every_match
           [0; 1; 0; 1; 0; 0]%nat
           [[Await; Append (JStr "a"); Await; Append (JStr "b")];
            [Await; Append (JStr "c")]] _ _)).
  reflexivity.
Defined.



(** ** The theorems on sample data *)

Lemma demo_serializable : json_serializable demo_dumps demo_loads (JObj sample_cache).
Proof. intros indent. vm_compute. reflexivity. Defined.

Lemma save_cache_lock_timeout_witness :
  ∃ w',
    save_cache_with_backup demo_dumps demo_loads demo_too_deep (JObj sample_cache)
      CACHE_FILE BACKUP_FILE
      (world_of {[CACHE_FILE := Utf8 "{}"]} false [] sample_cache) =
    (Raise ThreadError, w') ∧
    files w' !! CACHE_FILE =
      Some (Utf8 (demo_dumps (Some 2%nat) (JObj sample_cache))).
Proof.
  destruct (save_cache_lock_timeout demo_dumps demo_loads demo_too_deep (JObj sample_cache)
              (world_of {[CACHE_FILE := Utf8 "{}"]} false [] sample_cache)
              demo_serializable eq_refl) as (w' & Hrun & Hfile & _).
  exists w'. split; [exact Hrun | exact Hfile].
Defined.

Lemma load_after_save_witness :
  ∃ r w',
    save_cache_with_backup demo_dumps demo_loads demo_too_deep (JObj sample_cache)
      CACHE_FILE BACKUP_FILE (world_of ∅ true [] sample_cache) = (r, w') ∧
    load_cache_with_fallback demo_loads demo_too_deep CACHE_FILE BACKUP_FILE w' =
      (Ret (JObj sample_cache), w').
Proof.
  destruct (load_after_save demo_dumps demo_loads demo_too_deep sample_cache
              (world_of ∅ true [] sample_cache) demo_serializable)
    as (r & w' & Hrun & _ & Hload).
  exists r, w'. split; [exact Hrun | exact Hload].
Defined.

(** The cache file is cut short, the backup is whole. *)
Lemma load_cache_fallback_witness :
  load_cache_with_fallback demo_loads demo_too_deep CACHE_FILE BACKUP_FILE
    (world_of (<[CACHE_FILE := Utf8 "{"]>
                 {[BACKUP_FILE := Utf8 (demo_dumps None (JObj sample_cache))]})
              true [] ∅) =
  (Ret (JObj sample_cache),
   world_of (<[CACHE_FILE := Utf8 "{"]>
                {[BACKUP_FILE := Utf8 (demo_dumps None (JObj sample_cache))]})
            true [] ∅).
Proof.
  refine (load_cache_fallback demo_loads demo_too_deep CACHE_FILE BACKUP_FILE
            (world_of (<[CACHE_FILE := Utf8 "{"]>
                 {[BACKUP_FILE := Utf8 (demo_dumps None (JObj sample_cache))]})
              true [] ∅) _ _).
  - vm_compute. reflexivity.
  - intros _. vm_compute. discriminate.
Defined.

(** The cache file is not UTF-8, or nested too deeply; the backup is
    whole. *)
Lemma load_cache_raises_on_undecodable_file :
  load_cache_with_fallback demo_loads demo_too_deep CACHE_FILE BACKUP_FILE
    (world_of (<[CACHE_FILE := NotUtf8]> {[BACKUP_FILE := Utf8 "{}"]}) true [] ∅) =
  (Raise UnicodeDecodeError,
   world_of (<[CACHE_FILE := NotUtf8]> {[BACKUP_FILE := Utf8 "{}"]}) true [] ∅) ∧
  parsed demo_loads
    (world_of (<[CACHE_FILE := NotUtf8]> {[BACKUP_FILE := Utf8 "{}"]}) true [] ∅)
    BACKUP_FILE = Some (JObj ∅) ∧
  load_cache_with_fallback demo_loads demo_too_deep CACHE_FILE BACKUP_FILE
    (world_of (<[CACHE_FILE := Utf8 deep_text]> {[BACKUP_FILE := Utf8 "{}"]})
       true [] ∅) =
  (Raise RecursionError,
   world_of (<[CACHE_FILE := Utf8 deep_text]> {[BACKUP_FILE := Utf8 "{}"]})
     true [] ∅).
Proof.
  split; [| split; [vm_compute; reflexivity |]].
  - refine (proj1 (load_cache_raises demo_loads demo_too_deep CACHE_FILE BACKUP_FILE
              (world_of (<[CACHE_FILE := NotUtf8]> {[BACKUP_FILE := Utf8 "{}"]})
                 true [] ∅)) _).
    vm_compute. reflexivity.
  - refine (proj1 (proj2 (load_cache_raises demo_loads demo_too_deep
              CACHE_FILE BACKUP_FILE
              (world_of (<[CACHE_FILE := Utf8 deep_text]> {[BACKUP_FILE := Utf8 "{}"]})
                 true [] ∅))) deep_text _ _ _).
    + vm_compute. reflexivity.
    + vm_compute. reflexivity.
    + vm_compute. reflexivity.
Defined.

Lemma fetch_backoff_witness :
  ∃ w',
    fetch "u" "GET"
      (world_of ∅ true
         (repeat (Response 429 NotJson) 8 ++
          [Response 200 (Json (JStr "body"))]) ∅) = (Ret (JStr "body"), w') ∧
    sleeps w' = [1; 2; 4; 8; 16; 32; 60; 60].
Proof.
  destruct (fetch_backoff_then_success "u" "GET"
              (repeat (Response 429 NotJson) 8) 200 (JStr "body") []
              (world_of ∅ true
                 (repeat (Response 429 NotJson) 8 ++
                  [Response 200 (Json (JStr "body"))]) ∅))
    as (w' & slept & Hrun & _ & Hsleeps & Hslept & _).
  - repeat constructor.
  - lia.
  - reflexivity.
  - exists w'. split; [exact Hrun |]. rewrite Hsleeps, Hslept. reflexivity.
Defined.

Lemma fetch_error_witness :
  ∃ w',
    fetch "u" "GET"
      (world_of ∅ true
         [Response 429 NotJson; Response 503 NotJson;
          Response 200 (Json (JStr "late"))] ∅) = (Ret JNull, w') ∧
    server w' = [Response 200 (Json (JStr "late"))] ∧
    sleeps w' = [1].
Proof.
  destruct (fetch_error_returns_none "u" "GET" [Response 429 NotJson]
              (Response 503 NotJson) [Response 200 (Json (JStr "late"))]
              (world_of ∅ true
                 [Response 429 NotJson; Response 503 NotJson;
                  Response 200 (Json (JStr "late"))] ∅))
    as (w' & Hrun & Hserver & Hsleeps & _).
  - repeat constructor.
  - left. exists 503, NotJson. repeat split; lia.
  - reflexivity.
  - exists w'. split; [exact Hrun |]. split; [exact Hserver | exact Hsleeps].
Defined.

(** A chapter titled [Work/Energy]: its file would lie in a directory
    that nothing has made. *)
Lemma match_file_not_written_witness :
  process_question demo_dumps demo_loads demo_too_deep demo_repr "phys" "Newton" true
    (JStr "Work/Energy") (JStr "7")
    (made MATCHING_QUESTIONS_FOLDER (world_of ∅ true [] sample_cache)) =
  (Raise FileNotFoundError,
   add_match (detail_of "Newton's Law")
     (made MATCHING_QUESTIONS_FOLDER (world_of ∅ true [] sample_cache))) ∧
  match_filename demo_repr "phys" (JStr "Work/Energy") =
    "data/matching_questions/matching_questions_phys_Work/Energy.json".
Proof.
  split; [| reflexivity].
  refine (proj1 (match_file_not_written demo_dumps demo_loads demo_too_deep demo_repr
            "phys" "Newton" true (JStr "Work/Energy") (JStr "7")
            (detail_of "Newton's Law") "Newton's Law"
            (made MATCHING_QUESTIONS_FOLDER (world_of ∅ true [] sample_cache))
            (made MATCHING_QUESTIONS_FOLDER (world_of ∅ true [] sample_cache))
            _ _ _ _ _)).
  - vm_compute. reflexivity.
  - vm_compute. reflexivity.
  - vm_compute. reflexivity.
  - vm_compute. reflexivity.
  - vm_compute. reflexivity.
Defined.


Lemma fetch_question_details_unavailable_witness :
  fetch_question_details demo_dumps demo_loads demo_too_deep demo_repr (JStr "9")
    (world_of ∅ true [Response 404 NotJson] sample_cache) =
  (Ret JNull,
   World ∅ ∅ true false [] [("POST", "https://web.getmarks.app/api/v2/questions/9")]
     [] sample_cache [] 0).
Proof.
  refine (proj1 (fetch_question_details_unavailable demo_dumps demo_loads demo_too_deep demo_repr
            (JStr "9") (world_of ∅ true [Response 404 NotJson] sample_cache)
            _ _ _)).
  - vm_compute. reflexivity.
  - vm_compute. reflexivity.
Defined.

Lemma keyword_match_witness :
  matching_questions
    (process_question demo_dumps demo_loads demo_too_deep demo_repr "phys" "NEWTON" false
       (JStr "Laws of Motion") (JStr "7") (world_of ∅ true [] sample_cache)).2 =
  [detail_of "Newton's Law"].
Proof.
  destruct (keyword_match_is_substring demo_dumps demo_loads demo_too_deep demo_repr
              "NEWTON" "Newton's Law" (world_of ∅ true [] sample_cache))
    as (_ & _ & Hcrawl & _).
  refine (Hcrawl "phys" false (JStr "Laws of Motion") (JStr "7")
            (detail_of "Newton's Law") (world_of ∅ true [] sample_cache) _ _ _);
    vm_compute; reflexivity.
Defined.

(** Question 7 is in the cache; question 9 is not and the server has it. *)
Lemma fetch_question_details_witness :
  fetch_question_details demo_dumps demo_loads demo_too_deep demo_repr (JStr "7")
    (world_of ∅ true [Response 200 (Json (detail_of "Ohm's law"))] sample_cache) =
  (Ret (detail_of "Newton's Law"),
   world_of ∅ true [Response 200 (Json (detail_of "Ohm's law"))] sample_cache) ∧
  ∃ r w2,
    fetch_question_details demo_dumps demo_loads demo_too_deep demo_repr (JStr "9")
      (world_of ∅ true [Response 200 (Json (detail_of "Ohm's law"))] sample_cache) =
    (r, w2) ∧
    r = Ret (detail_of "Ohm's law") ∧
    cache w2 = <["question_9" := detail_of "Ohm's law"]> sample_cache ∧
    files w2 !! CACHE_FILE = Some (Utf8 (demo_dumps (Some 2%nat) (JObj (cache w2)))).
Proof.
  split.
  - destruct (fetch_question_details_cache_first demo_dumps demo_loads demo_too_deep demo_repr
                (JStr "7")
                (world_of ∅ true [Response 200 (Json (detail_of "Ohm's law"))]
                   sample_cache)) as (Hhit & _ & _).
    refine (proj1 (Hhit (detail_of "Newton's Law") _ _)); vm_compute; reflexivity.
  - destruct (fetch_question_details_cache_first demo_dumps demo_loads demo_too_deep demo_repr
                (JStr "9")
                (world_of ∅ true [Response 200 (Json (detail_of "Ohm's law"))]
                   sample_cache)) as (_ & _ & Hmiss).
    destruct (Hmiss (detail_of "Ohm's law")
                (World ∅ ∅ true false []
                   [("POST", "https://web.getmarks.app/api/v2/questions/9")]
                   [] sample_cache [] 0))
      as (r & w2 & Hrun & Hr & _ & Hcache & Hfile).
    + vm_compute. reflexivity.
    + vm_compute. reflexivity.
    + vm_compute. reflexivity.
    + intros indent. vm_compute. reflexivity.
    + exists r, w2. split; [exact Hrun |]. split; [exact (Hr eq_refl) |].
      split; [exact Hcache | exact Hfile].
Defined.

(** ** The further properties on sample data *)

Lemma fetch_with_retries_any_delays_witness :
  ∃ w',
    fetch_with_retries "u" "GET" 5 12
      (world_of ∅ true
         (repeat (Response 429 NotJson) 3 ++ [Response 200 (Json JNull)]) ∅) =
      (Ret JNull, w') ∧
    sleeps w' = [5; 10; 12].
Proof.
  destruct (fetch_with_retries_any_delays "u" "GET" 5 12
              (repeat (Response 429 NotJson) 3) (Response 200 (Json JNull)) []
              (world_of ∅ true
                 (repeat (Response 429 NotJson) 3 ++ [Response 200 (Json JNull)]) ∅))
    as (w' & slept & Hrun & _ & _ & Hsleeps & Hslept & _).
  - lia.
  - lia.
  - repeat constructor.
  - reflexivity.
  - reflexivity.
  - exists w'. split; [exact Hrun |]. rewrite Hsleeps, Hslept. reflexivity.
Defined.

Lemma fetch_keeps_retrying_witness :
  ∃ w',
    fetch "u" "GET" (world_of ∅ true (repeat (Response 429 NotJson) 9) ∅) =
      (Pending, w') ∧
    sleeps w' = [1; 2; 4; 8; 16; 32; 60; 60; 60].
Proof.
  destruct (fetch_keeps_retrying_on_429 "u" "GET" (repeat (Response 429 NotJson) 9)
              (world_of ∅ true (repeat (Response 429 NotJson) 9) ∅))
    as (w' & Hrun & _ & Hsleeps & _).
  - repeat constructor.
  - reflexivity.
  - exists w'. split; [exact Hrun | exact Hsleeps].
Defined.

Lemma fetch_unhandled_witness :
  (fetch "u" "GET"
     (world_of ∅ true [Response 429 NotJson; Failed TimeoutError] ∅)).1 =
  Raise TimeoutError.
Proof.
  refine (proj1 (proj2 (fetch_unhandled_exceptions "u" "GET" [Response 429 NotJson]
            (Failed TimeoutError) []
            (world_of ∅ true [Response 429 NotJson; Failed TimeoutError] ∅) _ _))
            eq_refl).
  - repeat constructor.
  - reflexivity.
Defined.

Lemma save_leaves_no_temporary_file_witness :
  files (save_cache_with_backup demo_dumps demo_loads demo_too_deep (JObj sample_cache)
           CACHE_FILE BACKUP_FILE (world_of ∅ true [] sample_cache)).2
    !! (CACHE_FILE ++ ".tmp")%string = None.
Proof.
  exact (proj1 (save_leaves_no_temporary_file demo_dumps demo_loads demo_too_deep
                  (JObj sample_cache) (world_of ∅ true [] sample_cache)
                  demo_serializable)).
Defined.

Lemma demo_serializable_empty : json_serializable demo_dumps demo_loads (JObj ∅).
Proof. intros indent. vm_compute. reflexivity. Defined.

Lemma backup_holds_previous_cache_witness :
  files (save_cache_with_backup demo_dumps demo_loads demo_too_deep (JObj ∅)
           CACHE_FILE BACKUP_FILE
           (world_of {[CACHE_FILE := Utf8 "{}"]} true [] ∅)).2 !! BACKUP_FILE =
  Some (Utf8 "{}").
Proof.
  exact (proj1 (backup_holds_previous_cache demo_dumps demo_loads demo_too_deep
                  (JObj ∅) (JObj sample_cache)
                  (world_of {[CACHE_FILE := Utf8 "{}"]} true [] ∅)
                  demo_serializable_empty demo_serializable)).
Defined.


Lemma empty_cached_detail_witness :
  calls (fetch_question_details demo_dumps demo_loads demo_too_deep demo_repr (JStr "7")
           (world_of ∅ true [Response 404 NotJson] {["question_7" := JObj ∅]})).2 =
  [("POST", question_url demo_repr (JStr "7"))].
Proof.
  refine (proj1 (empty_cached_detail_is_fetched_again demo_dumps demo_loads demo_too_deep demo_repr
                   (JStr "7") (JObj ∅)
                   (world_of ∅ true [Response 404 NotJson]
                      {["question_7" := JObj ∅]}) _ _)).
  - vm_compute. reflexivity.
  - vm_compute. reflexivity.
Defined.

Lemma list_chapters_caches_answer_witness :
  ∃ res w2,
    list_chapters demo_dumps demo_loads demo_too_deep "phys" "chapters_Physics"
      (world_of ∅ true
         [Response 200 (Json (JObj {["data" := JArr [JObj sample_chapter]]}))] ∅) =
      (res, w2) ∧
    res = Ret (JArr [JObj sample_chapter]) ∧
    cache w2 = {["chapters_Physics" := JArr [JObj sample_chapter]]}.
Proof.
  destruct (list_chapters_caches_answer demo_dumps demo_loads demo_too_deep
              "phys" "chapters_Physics"
              {["data" := JArr [JObj sample_chapter]]}
              (world_of ∅ true
                 [Response 200 (Json (JObj {["data" := JArr [JObj sample_chapter]]}))] ∅)
              (World ∅ ∅ true false [] [("GET", chapters_url "phys")] [] ∅ [] 0))
    as (res & w2 & Hrun & Hres & Hcache & _).
  - vm_compute. reflexivity.
  - vm_compute. reflexivity.
  - vm_compute. reflexivity.
  - intros indent. vm_compute. reflexivity.
  - exists res, w2. split; [exact Hrun |]. split; [exact (Hres eq_refl) | exact Hcache].
Defined.

Lemma empty_chapter_list_witness :
  search_questions demo_dumps demo_loads demo_too_deep (λ _, raise KeyError)
    "phys" "Newton" "chapters_Physics"
    (world_of ∅ true [] {["chapters_Physics" := JArr []]}) =
  (Ret [], world_of ∅ true [] {["chapters_Physics" := JArr []]}).
Proof.
  refine (proj2 (empty_chapter_list_is_final demo_dumps demo_loads demo_too_deep
                   (λ _, raise KeyError)
                   "phys" "Newton" "chapters_Physics" (JArr [])
                   (world_of ∅ true [] {["chapters_Physics" := JArr []]}) _ _)).
  - vm_compute. reflexivity.
  - reflexivity.
Defined.

Lemma list_chapters_failed_fetch_witness :
  list_chapters demo_dumps demo_loads demo_too_deep "phys" "chapters_Physics"
    (world_of ∅ true [Response 500 NotJson] ∅) =
  (Ret (JArr []), World ∅ ∅ true false [] [("GET", chapters_url "phys")] [] ∅ [] 0).
Proof.
  refine (proj1 (list_chapters_failed_fetch demo_dumps demo_loads demo_too_deep
                   (λ _, raise KeyError)
                   "phys" "Newton" "chapters_Physics" JNull
                   (world_of ∅ true [Response 500 NotJson] ∅)
                   (World ∅ ∅ true false [] [("GET", chapters_url "phys")] [] ∅ [] 0)
                   _ _ _)).
  - vm_compute. reflexivity.
  - vm_compute. reflexivity.
  - reflexivity.
Defined.

(** The crawl records a match and then fails. *)
Lemma search_questions_returns_the_matches_witness :
  (search_questions demo_dumps demo_loads demo_too_deep
     (λ _, bind (modify (add_match (detail_of "Newton's Law"))) (λ _, raise KeyError))
     "phys" "Newton" "chapters_Physics"
     (world_of ∅ true [] {["chapters_Physics" := JArr [JObj sample_chapter]]})).1 =
  Ret [detail_of "Newton's Law"].
Proof.
  destruct (search_questions_returns_the_matches demo_dumps demo_loads demo_too_deep
       (λ _, bind (modify (add_match (detail_of "Newton's Law"))) (λ _, raise KeyError))
       "phys" "Newton" "chapters_Physics" [JObj sample_chapter] (Raise KeyError)
       (world_of ∅ true [] {["chapters_Physics" := JArr [JObj sample_chapter]]})
       (add_match (detail_of "Newton's Law")
          (made MATCHING_QUESTIONS_FOLDER
             (world_of ∅ true [] {["chapters_Physics" := JArr [JObj sample_chapter]]}))))
    as [Hrun _].
  - vm_compute. reflexivity.
  - discriminate.
  - repeat constructor. eexists _, _. split; [reflexivity |]. vm_compute. reflexivity.
  - reflexivity.
  - discriminate.
  - rewrite Hrun. reflexivity.
Defined.

Lemma cache_keys_are_separate_witness :
  is_Some (SUBJECTS !! "Maths (Advanced)") ∧
  cache_key_of demo_repr (JNum 7) ≠ "chapters_Maths_Advanced".
Proof.
  destruct (cache_keys_are_separate demo_repr "Maths (Advanced)"
              "chapters_Maths_Advanced") as (Hid & _ & Hkey).
  - vm_compute. reflexivity.
  - split; [exact Hid | exact (Hkey (JNum 7))].
Defined.
